(** * honeybees.reporter: a shallow embedding of [Reporter]

    The Python class [Reporter] (src/honeybees/reporter.py) is rendered as
    pure functions over an explicit reporter state.  Exceptions are values
    of [Exc]; a method that mutates [self] or the file system returns the
    state it leaves behind together with its outcome, also when it raises.

    - 64-bit floats are Rocq's primitive IEEE-754 binary64 floats;
    - NumPy integer dtypes are [Z] with the wrap-around written out;
    - Python dictionaries are association lists in insertion order;
    - NumPy arrays indexed inside the numba kernels are lists updated
      with stdpp's [alter]. *)

From Stdlib Require Import ZArith List String Ascii Bool Lia PrimFloat Uint63.
From Stdlib Require Import DecimalString.
From stdpp Require Import base option list strings.

Import ListNotations.
Local Open Scope string_scope.
Local Open Scope list_scope.
Local Open Scope Z_scope.

(** ** Exceptions and outcomes *)

Inductive Exc : Type :=
| AssertionError
| ValueError (msg : string)
| KeyError (msg : string)
| AttributeError (msg : string)
| TypeError (msg : string)
| IndexError (msg : string)
| NameError (msg : string).

Inductive Result (A : Type) : Type :=
| Ok (a : A)
| Raise (e : Exc).

Arguments Ok {A} a.
Arguments Raise {A} e.

Definition is_ok {A} (r : Result A) : bool :=
  match r with Ok _ => true | Raise _ => false end.

(** ** NumPy dtypes seen by the numba kernels *)

Module NumPy.

Definition wrap (bits : Z) (z : Z) : Z :=
  (z + 2 ^ (bits - 1)) mod 2 ^ bits - 2 ^ (bits - 1).

Definition wrap32 : Z -> Z := wrap 32.
Definition wrap64 : Z -> Z := wrap 64.

(** int64 -> float64, rounded to nearest even by the primitive. *)
Definition float_of_int (z : Z) : float :=
  if z =? - 2 ^ 63 then (-0x1p63)%float
  else if z <? 0 then PrimFloat.opp (PrimFloat.of_uint63 (Uint63.of_Z (- z)))
  else PrimFloat.of_uint63 (Uint63.of_Z z).

(** What the kernels need from [values.dtype]: the zero that [np.zeros]
    writes, [+=] on an element, and [/] of an element by an int32 count
    (NumPy's [true_divide], always a float64). *)
Record DType : Type := {
  elt : Type;
  zero : elt;
  add : elt -> elt -> elt;
  true_divide : elt -> Z -> float
}.

Definition float64 : DType := {|
  elt := float;
  zero := 0%float;
  add := PrimFloat.add;
  true_divide := fun x c => PrimFloat.div x (float_of_int c)
|}.

Definition int64 : DType := {|
  elt := Z;
  zero := 0;
  add := fun x y => wrap64 (x + y);
  true_divide := fun x c => PrimFloat.div (float_of_int x) (float_of_int c)
|}.

(** The signed integer dtype of [bits] bits (int8 .. int64): the sum is
    stored back truncated to the width of the array. *)
Definition int_ (bits : Z) : DType := {|
  elt := Z;
  zero := 0;
  add := fun x y => wrap bits (x + y);
  true_divide := fun x c => PrimFloat.div (float_of_int x) (float_of_int c)
|}.

(** uint64 -> float64: above the int64 range the value is halved with
    its lowest bit kept as a sticky bit, converted, and doubled. *)
Definition float_of_uint (z : Z) : float :=
  if z <? 2 ^ 63 then float_of_int z
  else PrimFloat.mul (PrimFloat.of_uint63 (Uint63.of_Z (Z.lor (z / 2) (z mod 2))))
                     2%float.

(** The unsigned integer dtype of [bits] bits (uint8 .. uint64). *)
Definition uint (bits : Z) : DType := {|
  elt := Z;
  zero := 0;
  add := fun x y => (x + y) mod 2 ^ bits;
  true_divide := fun x c => PrimFloat.div (float_of_uint x) (float_of_int c)
|}.

(** The boolean dtype: the integer sum of two booleans is stored back
    as a boolean, true when it is not zero. *)
Definition bool_ : DType := {|
  elt := bool;
  zero := false;
  add := orb;
  true_divide := fun x c =>
    PrimFloat.div (if x then 1%float else 0%float) (float_of_int c)
|}.

(** [np.zeros(n, dtype)] *)
Definition zeros {A} (n : Z) (z : A) : Result (list A) :=
  if n <? 0 then Raise (ValueError "negative dimensions are not allowed")
  else Ok (replicate (Z.to_nat n) z).

(** [a[i]] for an integer [i] on an array or list of [n] slots: negative
    indices count from the end; outside [-n, n) no slot is addressed. *)
Definition index (n : nat) (i : Z) : option nat :=
  if (0 <=? i) && (i <? Z.of_nat n) then Some (Z.to_nat i)
  else if (- Z.of_nat n <=? i) && (i <? 0) then Some (Z.to_nat (i + Z.of_nat n))
  else None.

End NumPy.

Import NumPy.

Arguments index n i : simpl never.
Arguments zeros {A} n z : simpl never.
Arguments wrap32 z : simpl never.
Arguments wrap64 z : simpl never.

(** ** The per-group reducers ([mean_per_ID], [sum_per_ID]) *)

Section Reducers.

Variable D : DType.

(** The body of [for i in range(size)] in [sum_per_ID]; with the sizes
    asserted equal, walking both arrays in step is [values[i]],
    [group_ids[i]] for i = 0 .. size-1.  The kernel is compiled by numba
    without a bounds check: for an id below [-n_groups] the [+=] reads
    and writes outside the array, raises nothing, and the loop goes on
    with the array as it was (what lies at the address written is not
    part of this model). *)
Fixpoint sum_loop (values : list (elt D)) (group_ids : list Z) (n_groups : Z)
    (sum_per_group : list (elt D)) : Result (list (elt D)) :=
  match values, group_ids with
  | v :: values', group_id :: group_ids' =>
      if group_id <? n_groups then
        match index (length sum_per_group) group_id with
        | Some k =>
            sum_loop values' group_ids' n_groups
              (alter (fun s => add D s v) k sum_per_group)
        | None => sum_loop values' group_ids' n_groups sum_per_group
        end
      else Raise AssertionError
  | _, _ => Ok sum_per_group
  end.

Definition sum_per_ID (values : list (elt D)) (group_ids : list Z) (n_groups : Z)
    : Result (list (elt D)) :=
  if Nat.eqb (length values) (length group_ids) then
    match zeros n_groups (zero D) with
    | Ok sum_per_group => sum_loop values group_ids n_groups sum_per_group
    | Raise e => Raise e
    end
  else Raise AssertionError.

(** The loop of [mean_per_ID]: the int32 counter is bumped first, then
    the sum. *)
Fixpoint mean_loop (values : list (elt D)) (group_ids : list Z) (n_groups : Z)
    (count_per_group : list Z) (sum_per_group : list (elt D))
    : Result (list Z * list (elt D)) :=
  match values, group_ids with
  | v :: values', group_id :: group_ids' =>
      if group_id <? n_groups then
        match index (length count_per_group) group_id,
              index (length sum_per_group) group_id with
        | Some kc, Some ks =>
            mean_loop values' group_ids' n_groups
              (alter (fun c => wrap32 (c + 1)) kc count_per_group)
              (alter (fun s => add D s v) ks sum_per_group)
        | _, _ => mean_loop values' group_ids' n_groups count_per_group sum_per_group
        end
      else Raise AssertionError
  | _, _ => Ok (count_per_group, sum_per_group)
  end.

Definition mean_per_ID (values : list (elt D)) (group_ids : list Z) (n_groups : Z)
    : Result (list float) :=
  if Nat.eqb (length values) (length group_ids) then
    match zeros n_groups 0, zeros n_groups (zero D) with
    | Ok count_per_group, Ok sum_per_group =>
        match mean_loop values group_ids n_groups count_per_group sum_per_group with
        | Ok (counts, sums) => Ok (zip_with (true_divide D) sums counts)
        | Raise e => Raise e
        end
    | Raise e, _ => Raise e
    | _, Raise e => Raise e
    end
  else Raise AssertionError.

(** *** What the reducers are compared with *)

(** The values whose group id is [g], in array order. *)
Fixpoint members (values : list (elt D)) (group_ids : list Z) (g : Z)
    : list (elt D) :=
  match values, group_ids with
  | v :: values', i :: group_ids' =>
      if i =? g then v :: members values' group_ids' g
      else members values' group_ids' g
  | _, _ => []
  end.

(** Their sum in the dtype's own arithmetic, accumulated from zero in
    array order. *)
Definition group_sum (values : list (elt D)) (group_ids : list Z) (g : Z)
    : elt D :=
  fold_left (add D) (members values group_ids g) (zero D).

(** The number of indices [i] with [group_ids[i] = g]. *)
Definition group_count (group_ids : list Z) (g : Z) : Z :=
  Z.of_nat (length (List.filter (fun i => i =? g) group_ids)).

End Reducers.


(** ** Python values

    [Scalar] is a native Python object as [ndarray.item()] returns it;
    [PyOther] stands for any further non-iterable object (complex, ...)
    with the name of its type and its [str()].  Arrays are
    one-dimensional and carry their dtype; [np.generic] scalars are
    arrays of size one. *)

(** [array.dtype]: float64, a signed or unsigned integer of 8 to 64
    bits, bool, or any other dtype (float32, complex128, object, ...) by
    its name. *)
Inductive NpType : Type :=
| np_float64
| np_int (bits : Z)
| np_uint (bits : Z)
| np_bool
| np_other (name : string).

Inductive Scalar : Type :=
| PyNone
| PyBool (b : bool)
| PyInt (z : Z)
| PyFloat (f : float)
| PyStr (s : string)
| PyOther (type_name repr : string).

#[warnings="-register-all"]
Inductive Value : Type :=
| Py (s : Scalar)
| NdArray (dtype : NpType) (a : list Scalar)
| PyList (l : list Value).

(** ** Insertion-ordered dictionaries *)

Section Dict.

Context {K V : Type} `{EqDecision K}.

Fixpoint dict_get (k : K) (d : list (K * V)) : option V :=
  match d with
  | [] => None
  | (k', v) :: d' => if decide (k = k') then Some v else dict_get k d'
  end.

(** [d[k] = v]: an existing key keeps its place, a new one goes last. *)
Fixpoint dict_set (k : K) (v : V) (d : list (K * V)) : list (K * V) :=
  match d with
  | [] => [(k, v)]
  | (k', v') :: d' =>
      if decide (k = k') then (k, v) :: d' else (k', v') :: dict_set k v d'
  end.

(** [dict(pairs)], later pairs overwriting earlier ones. *)
Definition dict_of (pairs : list (K * V)) : list (K * V) :=
  fold_left (fun d kv => dict_set (fst kv) (snd kv) d) pairs [].

End Dict.

(** ** [os.path] and [str] helpers *)

Definition ends_with_sep (s : string) : bool :=
  match String.length s with
  | O => false
  | S n => match String.get n s with
           | Some c => Ascii.eqb c "/"
           | None => false
           end
  end.

Definition starts_with_sep (s : string) : bool :=
  match s with
  | String c _ => Ascii.eqb c "/"
  | EmptyString => false
  end.

(** [os.path.join(a, b)] (posixpath). *)
Definition path_join (a b : string) : string :=
  if starts_with_sep b then b
  else if (Nat.eqb (String.length a) 0 || ends_with_sep a)%bool then String.append a b
  else String.append a (String.append "/" b).

(** [s.replace(c, '')] for a one-character [c]. *)
Fixpoint remove_char (c : ascii) (s : string) : string :=
  match s with
  | EmptyString => EmptyString
  | String c' s' =>
      if Ascii.eqb c' c then remove_char c s' else String c' (remove_char c s')
  end.

(** ** The collaborators of the reporter

    What the module takes from outside: the entity ids of an agent class
    (any Python objects) with what the reporter does to them, the
    model's clock values with [isoformat()], whether [import cupy]
    succeeded, NumPy's whole-array reductions and [np.save], numba's
    dispatch of the kernels on dtypes that are not embedded here, and
    the pandas frame constructors. *)

Class Collaborators : Type := {
  ID : Type;
  (** equality of ids as dictionary keys *)
  ID_eq_dec :: EqDecision ID;
  repr_ID : ID -> string;
  (** [hash(ID)] returns (it raises TypeError for a list, an array, ...) *)
  ID_hashable : ID -> bool;
  (** [ID.__index__()], for an id that a list accepts as an index *)
  ID_index : ID -> option Z;
  (** [ID in l] for a list [l] of buffered values: the ids' and the
      values' [==] decide, and may raise *)
  ID_in_list : ID -> list Value -> Result bool;
  Time : Type;
  Time_eq_dec :: EqDecision Time;
  isoformat : Time -> string;
  cupy_imported : bool;
  np_mean : Value -> Result Value;
  np_sum : Value -> Result Value;
  (** what [np.save(fp, value)] raises when it cannot turn [value] into
      an array (a ragged list), after it has opened the file *)
  np_save_error : Value -> option Exc;
  (** [mean_per_ID] (for [true]) or [sum_per_ID] called on arguments for
      which no compiled version is embedded below: numba's own typing
      and dispatch *)
  njit_other : bool -> Value -> Value -> Z -> Result Value;
  DataFrame : Type;
  (** [pd.DataFrame.from_dict(d)] on a dict of columns keyed by entity id *)
  DataFrame_from_dict_ids : list (ID * Value) -> Result DataFrame;
  (** [pd.DataFrame.from_dict(d)] on a dict of columns keyed by time *)
  DataFrame_from_dict_times : list (Time * Value) -> Result DataFrame;
  (** [df.index = index] *)
  DataFrame_set_index : DataFrame -> list Time -> Result DataFrame;
  (** [pd.DataFrame(values, index=index, columns=columns)] *)
  DataFrame_new : list Value -> list Time -> list string -> Result DataFrame
}.

Section Reporter.

Context `{C : Collaborators}.

(** *** Configuration and model *)

(** [conf['function']]: None, a callable, or anything else by its [str()]. *)
Inductive Function : Type :=
| FNone
| FCallable (call : list Value -> Result Value)
| FStr (s : string).

(** One entry of [config['report']]; an absent key is [None]. *)
Record Conf : Type := {
  c_type : option string;
  c_varname : option string;
  c_function : option Function;
  c_scale : option string;
  c_ids : option Value;
  c_split : option bool;
  c_format : option string;
  c_save : option string;
  c_initial_only : option bool;
  c_frequency : option string
}.

(** An agent class: its attributes and its [ids]. *)
Record AgentClass : Type := {
  attrs : list (string * Value);
  ids : option (list ID)
}.

Record Config : Type := {
  report_folder : string;
  cfg_report : option (list (string * Conf))
}.

(** The model as the reporter reads it at one call. *)
Record Model : Type := {
  agents : option (list (string * AgentClass));
  config : option Config;
  current_time : Time;
  current_timestep : Z
}.

(** *** The reporter and the disk it writes *)

(** [name] of [report_value]: a string, or [(name, ID)] for split data. *)
Inductive Name : Type :=
| NameStr (name : string)
| NameTuple (name : string) (id : ID).

Inductive Series : Type :=
| Flat (values : list Value)
| PerID (values : list (ID * list Value)).

Inductive Content : Type :=
| EmptyFile
| NpySave (value : Value)
| CsvLines (items : list Value)
| FrameCsv (df : DataFrame)
| FrameExcel (df : DataFrame)
| FrameNpy (df : DataFrame).

(** A file written: by [export_value] for [w_name] when [w_snapshot],
    else by [report]. *)
Record Write : Type := {
  w_snapshot : bool;
  w_name : string;
  w_path : string;
  w_content : Content
}.

Record Reporter : Type := {
  variables : list (string * Series);
  timesteps : list Time;
  export_folder : string;
  disk_dirs : list string;
  disk_writes : list Write;
  logger_info : list nat
}.

(** A method runs on the reporter; when it raises, what it did to the
    reporter and the disk until then stays done. *)
Definition M (A : Type) : Type := Reporter -> Result A * Reporter.

Definition ret {A} (a : A) : M A := fun st => (Ok a, st).
Definition raise {A} (e : Exc) : M A := fun st => (Raise e, st).
Definition bind {A B} (c : M A) (k : A -> M B) : M B :=
  fun st => match c st with
            | (Ok a, st') => k a st'
            | (Raise e, st') => (Raise e, st')
            end.
Definition lift {A} (r : Result A) : M A := fun st => (r, st).
Definition get : M Reporter := fun st => (Ok st, st).
Definition modify (f : Reporter -> Reporter) : M unit := fun st => (Ok tt, f st).

Notation "x <- c ;; k" := (bind c (fun x => k))
  (at level 100, c at next level, right associativity).
Notation "c ;;; k" := (bind c (fun _ => k))
  (at level 100, k at level 200, right associativity).

(** [for x in xs: body(x)] *)
Fixpoint for_each {A} (xs : list A) (body : A -> M unit) : M unit :=
  match xs with
  | [] => ret tt
  | x :: xs' => body x ;;; for_each xs' body
  end.

Definition set_variables (v : list (string * Series)) (st : Reporter) : Reporter :=
  {| variables := v; timesteps := timesteps st; export_folder := export_folder st;
     disk_dirs := disk_dirs st; disk_writes := disk_writes st;
     logger_info := logger_info st |}.

Definition push_timestep (t : Time) (st : Reporter) : Reporter :=
  {| variables := variables st; timesteps := timesteps st ++ [t];
     export_folder := export_folder st;
     disk_dirs := disk_dirs st; disk_writes := disk_writes st;
     logger_info := logger_info st |}.

(** [try: os.makedirs(folder) except OSError: pass] on a writable disk:
    the folder exists afterwards. *)
Definition makedirs (folder : string) (st : Reporter) : Reporter :=
  {| variables := variables st; timesteps := timesteps st;
     export_folder := export_folder st;
     disk_dirs := if decide (folder ∈ disk_dirs st) then disk_dirs st
                  else disk_dirs st ++ [folder];
     disk_writes := disk_writes st;
     logger_info := logger_info st |}.

Definition write_file (w : Write) (st : Reporter) : Reporter :=
  {| variables := variables st; timesteps := timesteps st;
     export_folder := export_folder st;
     disk_dirs := disk_dirs st; disk_writes := disk_writes st ++ [w];
     logger_info := logger_info st |}.

Definition log_info (n : nat) (st : Reporter) : Reporter :=
  {| variables := variables st; timesteps := timesteps st;
     export_folder := export_folder st;
     disk_dirs := disk_dirs st; disk_writes := disk_writes st;
     logger_info := logger_info st ++ [n] |}.

(** *** [check_value] *)

Definition check_value (value : Scalar) : Result unit :=
  match value with
  | PyNone | PyBool _ | PyInt _ => Ok tt
  | PyFloat f =>
      if PrimFloat.is_infinity f then Raise AssertionError else Ok tt
  | PyStr s =>
      Raise (ValueError ("value " +:+ s +:+
                         " of type <class 'str'> is not Python float or int"))
  | PyOther type_name repr =>
      Raise (ValueError ("value " +:+ repr +:+ " of type <class '" +:+ type_name +:+
                         "'> is not Python float or int"))
  end.

(** [v.item()] *)
Definition item (v : Value) : Result Scalar :=
  match v with
  | NdArray _ [s] => Ok s
  | NdArray _ _ =>
      Raise (ValueError "can only convert an array of size 1 to a Python scalar")
  | Py _ => Raise (AttributeError "object has no attribute 'item'")
  | PyList _ => Raise (AttributeError "'list' object has no attribute 'item'")
  end.

(** [[v.item() for v in value]] *)
Fixpoint items (value : list Value) : Result (list Scalar) :=
  match value with
  | [] => Ok []
  | v :: value' =>
      match item v with
      | Raise e => Raise e
      | Ok s => match items value' with
                | Raise e => Raise e
                | Ok ss => Ok (s :: ss)
                end
      end
  end.

(** [for v in value: self.check_value(v)] *)
Fixpoint check_values (value : list Scalar) : Result unit :=
  match value with
  | [] => Ok tt
  | v :: value' =>
      match check_value v with
      | Raise e => Raise e
      | Ok _ => check_values value'
      end
  end.

(** The head of [report_value]: a NumPy value of size one becomes its
    native scalar and is checked; a list has every element converted
    and checked; anything else passes as it is. *)
Definition to_native (value : Value) : Result Value :=
  let unwrapped :=
    match value with
    | NdArray _ [s] =>
        match check_value s with
        | Raise e => Raise e
        | Ok _ => Ok (Py s)
        end
    | _ => Ok value
    end in
  match unwrapped with
  | Raise e => Raise e
  | Ok (PyList l) =>
      match items l with
      | Raise e => Raise e
      | Ok ss =>
          match check_values ss with
          | Raise e => Raise e
          | Ok _ => Ok (PyList (map Py ss))
          end
      end
  | Ok value' => Ok value'
  end.

(** [str(name)] inside the messages. *)
Definition str_name (name : Name) : string :=
  match name with
  | NameStr n => n
  | NameTuple n id => "('" +:+ n +:+ "', " +:+ repr_ID id +:+ ")"
  end.

(** *** [export_value] *)

Definition chars (s : string) : list Value :=
  map (fun c => Py (PyStr (String c EmptyString))) (list_ascii_of_string s).

(** The csv branch up to [len(value)]: the value as the sequence that is
    written, one [str(v)] per line. *)
Definition csv_items (value : Value) : Result (list Value) :=
  if cupy_imported then
    match value with
    | NdArray _ a => Ok (map Py a)
    | PyList l => Ok l
    | Py (PyStr s) => Ok (chars s)
    | Py _ => Raise (TypeError "object has no len()")
    end
  else Raise (NameError "name 'cp' is not defined").

Definition snapshot_filename (conf : Conf) (st : Reporter) : Result string :=
  if match c_frequency conf with
     | Some frequency => String.eqb frequency "initial_only"
     | None => false
     end
  then Ok "initial"
  else
    match last (timesteps st) with
    | Some t => Ok (remove_char ":" (remove_char "-" (isoformat t)))
    | None => Raise (IndexError "list index out of range")
    end.

Definition export_value (name : Name) (value : Value) (conf : Conf) : M unit :=
  match name with
  | NameTuple _ _ =>
      raise (TypeError "join() argument must be str, bytes, or os.PathLike object, not 'tuple'")
  | NameStr name =>
      st <- get ;;
      let folder := path_join (export_folder st) name in
      modify (makedirs folder) ;;;
      match c_format conf with
      | None =>
          raise (ValueError ("Export format must be specified for " +:+ name +:+
                             " in config file (npy/csv/xlsx)."))
      | Some format =>
          fn <- lift (snapshot_filename conf st) ;;
          if String.eqb format "npy" then
            match np_save_error value with
            | None =>
                modify (write_file {| w_snapshot := true; w_name := name;
                                      w_path := path_join folder (fn +:+ ".npy");
                                      w_content := NpySave value |})
            | Some e =>
                modify (write_file {| w_snapshot := true; w_name := name;
                                      w_path := path_join folder (fn +:+ ".npy");
                                      w_content := EmptyFile |}) ;;;
                raise e
            end
          else if String.eqb format "csv" then
            lines <- lift (csv_items value) ;;
            (if 100000 <? Z.of_nat (length lines) then modify (log_info (length lines))
             else ret tt) ;;;
            modify (write_file {| w_snapshot := true; w_name := name;
                                  w_path := path_join folder (fn +:+ ".csv");
                                  w_content := CsvLines lines |})
          else raise (ValueError (format +:+ " not recognized"))
      end
  end.

(** *** [report_value] *)

Definition wants_export (save : string) : bool :=
  (String.eqb save "export" || String.eqb save "save+export")%bool.

Definition wants_save (save : string) : bool :=
  (String.eqb save "save" || String.eqb save "save+export")%bool.

Definition truthy (flag : option bool) : bool :=
  match flag with Some true => true | _ => false end.

(** The [try] block of [report_value].  Nothing in it raises KeyError,
    so the handler never runs.  Under a tuple name the series of a new
    name is stored as an empty dict before [ID] is looked up in it, and
    the lookup hashes [ID]; on a series that is a plain list [ID] is
    searched in the list and then used as a list index, so that the
    value ends up in a list at that place.  A string name on a per-id
    dict has no [append]. *)
Definition append_value (name : Name) (value : Value) : M unit :=
  st <- get ;;
  let store name series :=
    modify (set_variables (dict_set name series (variables st))) in
  match name with
  | NameTuple name id =>
      match dict_get name (variables st) with
      | None =>
          if ID_hashable id then store name (PerID [(id, [value])])
          else store name (PerID []) ;;; raise (TypeError "unhashable type")
      | Some (PerID d) =>
          if ID_hashable id then
            let old := match dict_get id d with Some l => l | None => [] end in
            store name (PerID (dict_set id (old ++ [value]) d))
          else raise (TypeError "unhashable type")
      | Some (Flat l) =>
          present <- lift (ID_in_list id l) ;;
          match ID_index id with
          | None => raise (TypeError "list indices must be integers or slices")
          | Some i =>
              if present : bool then
                match index (length l) i with
                | None => raise (IndexError "list index out of range")
                | Some k =>
                    match l !! k with
                    | Some (PyList x) => store name (Flat (<[k := PyList (x ++ [value])]> l))
                    | _ => raise (AttributeError "object has no attribute 'append'")
                    end
                end
              else
                match index (length l) i with
                | None => raise (IndexError "list assignment index out of range")
                | Some k => store name (Flat (<[k := PyList [value]]> l))
                end
          end
      end
  | NameStr name =>
      match dict_get name (variables st) with
      | None => store name (Flat [value])
      | Some (Flat l) => store name (Flat (l ++ [value]))
      | Some (PerID _) =>
          raise (AttributeError "'dict' object has no attribute 'append'")
      end
  end.

Definition report_value (m : Model) (name : Name) (value : Value) (conf : Conf)
    : M unit :=
  value <- lift (to_native value) ;;
  match c_save conf with
  | None =>
      raise (ValueError ("Save type must be specified for " +:+ str_name name +:+
                         " in config file (save/save+export/export)."))
  | Some save =>
      if negb (String.eqb save "save" || String.eqb save "export"
               || String.eqb save "save+export")%bool then
        raise (ValueError ("Save type for " +:+ str_name name +:+
                           " in config file must be 'save', 'save+export' or 'export')."))
      else
        (if wants_export save then
           if truthy (c_initial_only conf) then
             if current_timestep m =? 0 then export_value name value conf
             else ret tt
           else export_value name value conf
         else ret tt) ;;;
        (if wants_save save then append_value name value else ret tt)
  end.

(** *** [parse_agent_data] *)

Fixpoint as_floats (a : list Scalar) : option (list float) :=
  match a with
  | [] => Some []
  | PyFloat f :: a' => match as_floats a' with
                       | Some fs => Some (f :: fs)
                       | None => None
                       end
  | _ => None
  end.

Fixpoint as_ints (a : list Scalar) : option (list Z) :=
  match a with
  | [] => Some []
  | PyInt z :: a' => match as_ints a' with
                     | Some zs => Some (z :: zs)
                     | None => None
                     end
  | _ => None
  end.

Fixpoint as_bools (a : list Scalar) : option (list bool) :=
  match a with
  | [] => Some []
  | PyBool b :: a' => match as_bools a' with
                      | Some bs => Some (b :: bs)
                      | None => None
                      end
  | _ => None
  end.

(** One compiled version of the two kernels: [values] unboxed at the
    dtype [D], the result boxed again; the sums keep the dtype of
    [values], the means are float64. *)
Definition run_kernel (D : DType) (dtype : NpType) (box : elt D -> Scalar)
    (mean : bool) (values : list (elt D)) (group_ids : list Z) (n_groups : Z)
    : Result Value :=
  if mean then
    match mean_per_ID D values group_ids n_groups with
    | Ok out => Ok (NdArray np_float64 (map PyFloat out))
    | Raise e => Raise e
    end
  else
    match sum_per_ID D values group_ids n_groups with
    | Ok out => Ok (NdArray dtype (map box out))
    | Raise e => Raise e
    end.

(** A call of one of the two jitted kernels on Python values: numba
    compiles one version per dtype of [values]; embedded here are those
    for float64, integer and bool arrays with an integer array of group
    ids, every other call is left to numba. *)
Definition call_kernel (mean : bool) (values group_ids : Value) (n_groups : Z)
    : Result Value :=
  let other := njit_other mean values group_ids n_groups in
  let ids :=
    match group_ids with
    | NdArray (np_int _) gs | NdArray (np_uint _) gs => as_ints gs
    | _ => None
    end in
  match values, ids with
  | NdArray np_float64 vs, Some gs =>
      match as_floats vs with
      | Some fs => run_kernel float64 np_float64 PyFloat mean fs gs n_groups
      | None => other
      end
  | NdArray (np_int bits) vs, Some gs =>
      match as_ints vs with
      | Some zs => run_kernel (int_ bits) (np_int bits) PyInt mean zs gs n_groups
      | None => other
      end
  | NdArray (np_uint bits) vs, Some gs =>
      match as_ints vs with
      | Some zs => run_kernel (uint bits) (np_uint bits) PyInt mean zs gs n_groups
      | None => other
      end
  | NdArray np_bool vs, Some gs =>
      match as_bools vs with
      | Some bs => run_kernel bool_ np_bool PyBool mean bs gs n_groups
      | None => other
      end
  | _, _ => other
  end.

(** [getattr(agents, attr)] on an agent class. *)
Definition getattr (agents : AgentClass) (attr : string) : Result Value :=
  match dict_get attr (attrs agents) with
  | Some v => Ok v
  | None => Raise (AttributeError ("object has no attribute '" +:+ attr +:+ "'"))
  end.

(** [conf['ids'].size] *)
Definition size (ids : Value) : Result Z :=
  match ids with
  | NdArray _ a => Ok (Z.of_nat (length a))
  | _ => Raise (AttributeError "object has no attribute 'size'")
  end.

(** The value that [parse_agent_data] hands to [report_value]. *)
Definition apply_function (values : Value) (agents : AgentClass) (conf : Conf)
    : Result Value :=
  match c_function conf with
  | None => Raise (KeyError "function")
  | Some FNone => Ok values
  | Some function =>
      match c_ids conf with
      | Some ids =>
          match c_scale conf with
          | None => Raise (KeyError "scale")
          | Some scale =>
              match getattr agents scale with
              | Raise e => Raise e
              | Ok group_ids =>
                  match size ids with
                  | Raise e => Raise e
                  | Ok n_groups =>
                      match function with
                      | FCallable fn => fn [values; group_ids; Py (PyInt n_groups)]
                      | FStr f =>
                          if String.eqb f "mean" then call_kernel true values group_ids n_groups
                          else if String.eqb f "sum" then call_kernel false values group_ids n_groups
                          else Raise (ValueError (f +:+ " function unknown"))
                      | FNone => Ok values
                      end
                  end
              end
          end
      | None =>
          let arg :=
            match c_varname conf with
            | None => Raise (KeyError "varname")
            | Some varname => getattr agents varname
            end in
          match function with
          | FCallable fn => match arg with Ok a => fn [a] | Raise e => Raise e end
          | FStr f =>
              if String.eqb f "mean" then
                match arg with Ok a => np_mean a | Raise e => Raise e end
              else if String.eqb f "sum" then
                match arg with Ok a => np_sum a | Raise e => Raise e end
              else Raise (ValueError (f +:+ " function unknown"))
          | FNone => Ok values
          end
      end
  end.

Definition parse_agent_data (m : Model) (name : Name) (values : Value)
    (agents : AgentClass) (conf : Conf) : M unit :=
  value <- lift (apply_function values agents conf) ;;
  report_value m name value conf.

(** *** [extract_agent_data] *)

(** [iter(values)] *)
Definition iterate (values : Value) : Result (list Value) :=
  match values with
  | NdArray dtype a => Ok (map (fun s => NdArray dtype [s]) a)
  | PyList l => Ok l
  | Py (PyStr s) => Ok (chars s)
  | Py _ => Raise (TypeError "object is not iterable")
  end.

Definition extract_agent_data (m : Model) (name : string) (conf : Conf) : M unit :=
  match c_type conf with
  | None => raise (KeyError "type")
  | Some type =>
      match agents m with
      | None => raise (AttributeError "object has no attribute 'agents'")
      | Some all_agents =>
          match dict_get type all_agents with
          | None => raise (AttributeError ("object has no attribute '" +:+ type +:+ "'"))
          | Some agents =>
              match c_varname conf with
              | None => raise (KeyError "varname")
              | Some varname =>
                  match dict_get varname (attrs agents) with
                  | None =>
                      raise (AttributeError
                               ("Trying to export '" +:+ varname +:+
                                "', but no such attribute exists for agent type '" +:+
                                type +:+ "'"))
                  | Some values =>
                      if truthy (c_split conf) then
                        match ids agents with
                        | None => raise (AttributeError "object has no attribute 'ids'")
                        | Some agent_ids =>
                            admin <- lift (iterate values) ;;
                            for_each (zip agent_ids admin)
                              (fun pair =>
                                 parse_agent_data m (NameTuple name (fst pair)) (snd pair)
                                   agents conf)
                        end
                      else parse_agent_data m (NameStr name) values agents conf
                  end
              end
          end
      end
  end.

(** *** [step], [__init__] and [report] *)

Definition step (m : Model) : M unit :=
  modify (push_timestep (current_time m)) ;;;
  match config m with
  | None => ret tt
  | Some cfg =>
      match cfg_report cfg with
      | None => ret tt
      | Some directives =>
          for_each directives (fun d => extract_agent_data m (fst d) (snd d))
      end
  end.

Definition maybe_create_export_folder : M unit :=
  st <- get ;;
  modify (makedirs (export_folder st)).

(** [Reporter(model, subfolder)] on a disk holding the folders [dirs]. *)
Definition init (m : Model) (subfolder : option string) (dirs : list string)
    : Result unit * Reporter :=
  let blank folder :=
    {| variables := []; timesteps := []; export_folder := folder;
       disk_dirs := dirs; disk_writes := []; logger_info := [] |} in
  match agents m with
  | None =>
      (Raise (NameError "Attribute agents of model does not exists. This most likely means that the reporter was created before the agents."),
       blank "")
  | Some _ =>
      match config m with
      | None => (Raise (TypeError "'NoneType' object is not subscriptable"), blank "")
      | Some cfg =>
          let folder :=
            match subfolder with
            | Some sub => if Nat.eqb (String.length sub) 0 then report_folder cfg
                          else path_join (report_folder cfg) sub
            | None => report_folder cfg
            end in
          (maybe_create_export_folder ;;; step m) (blank folder)
      end
  end.

Definition is_iterable (v : Value) : bool :=
  match v with
  | NdArray _ _ | PyList _ | Py (PyStr _) => true
  | Py _ => false
  end.

(** The frame that [report] builds for one name. *)
Definition build_frame (name : string) (values : Series) (st : Reporter)
    : Result DataFrame :=
  match values with
  | PerID d =>
      match DataFrame_from_dict_ids (map (fun kv => (fst kv, PyList (snd kv))) d) with
      | Raise e => Raise e
      | Ok df => DataFrame_set_index df (timesteps st)
      end
  | Flat [] => Raise (IndexError "list index out of range")
  | Flat ((v0 :: _) as vs) =>
      if is_iterable v0 then DataFrame_from_dict_times (dict_of (zip (timesteps st) vs))
      else DataFrame_new vs (timesteps st) [name]
  end.

(** The body of the loop of [report]. *)
Definition report_one (m : Model) (name : string) (values : Series) : M unit :=
  st <- get ;;
  df <- lift (build_frame name values st) ;;
  match config m with
  | None => raise (TypeError "'NoneType' object is not subscriptable")
  | Some cfg =>
      match cfg_report cfg with
      | None => raise (KeyError "report")
      | Some directives =>
          match dict_get name directives with
          | None => raise (KeyError name)
          | Some conf =>
              match c_format conf with
              | None =>
                  raise (ValueError ("Key 'format' not specified in config file for " +:+ name))
              | Some export_format =>
                  let filepath :=
                    path_join (export_folder st) (name +:+ "." +:+ export_format) in
                  let written content :=
                    modify (write_file {| w_snapshot := false; w_name := name;
                                          w_path := filepath; w_content := content |}) in
                  if String.eqb export_format "csv" then written (FrameCsv df)
                  else if String.eqb export_format "xlsx" then written (FrameExcel df)
                  else if String.eqb export_format "npy" then written (FrameNpy df)
                  else raise (ValueError ("save_to format " +:+ export_format +:+ " unknown"))
              end
          end
      end
  end.

Definition report (m : Model) : M (list (string * DataFrame)) :=
  let report_dict := [] in
  st <- get ;;
  for_each (variables st) (fun item => report_one m (fst item) (snd item)) ;;;
  ret report_dict.

(** [step()] called once per model snapshot, stopping at the first
    call that raises. *)
Definition run (ms : list Model) : M unit := for_each ms step.

(** *** Observations used in the statements *)

(** The string under which a name is stored and exported. *)
Definition base (name : Name) : string :=
  match name with
  | NameStr n => n
  | NameTuple n _ => n
  end.

(** How many snapshot files [export_value] has written for [name]. *)
Definition snapshots (name : string) (st : Reporter) : nat :=
  length (List.filter (fun w => w_snapshot w && String.eqb (w_name w) name)%bool
                      (disk_writes st)).

(** The buffered series of a non-split name, empty before its first value. *)
Definition flat_series (name : string) (st : Reporter) : list Value :=
  match dict_get name (variables st) with
  | Some (Flat l) => l
  | _ => []
  end.

Definition directives (m : Model) : list (string * Conf) :=
  match config m with
  | Some cfg => match cfg_report cfg with
                | Some ds => ds
                | None => []
                end
  | None => []
  end.

(** [conf] is the entry [name] of the model's report table (a Python
    dict: no name occurs twice). *)
Definition has_directive (m : Model) (name : string) (conf : Conf) : Prop :=
  NoDup (map fst (directives m)) /\ In (name, conf) (directives m).

(** The value a non-split directive hands to the store at one step:
    the attribute, reduced, then made native. *)
Definition directive_value (m : Model) (conf : Conf) : option Value :=
  match c_type conf, agents m, c_varname conf with
  | Some type, Some all_agents, Some varname =>
      match dict_get type all_agents with
      | Some agents =>
          match dict_get varname (attrs agents) with
          | Some values =>
              match apply_function values agents conf with
              | Ok raw => match to_native raw with
                          | Ok v => Some v
                          | Raise _ => None
                          end
              | Raise _ => None
              end
          | None => None
          end
      | None => None
      end
  | _, _, _ => None
  end.

(** The calls of [step] made while the model's timestep counter is 0. *)
Definition calls_at_timestep_zero (ms : list Model) : nat :=
  length (List.filter (fun m => current_timestep m =? 0) ms).

(** What [check_value] lets through. *)
Definition accepted (s : Scalar) : bool :=
  match s with
  | PyNone | PyBool _ | PyInt _ => true
  | PyFloat f => negb (PrimFloat.is_infinity f)
  | PyStr _ | PyOther _ _ => false
  end.

(** Names other than [k] are left alone: their series and their
    snapshot count. *)
Definition same_for (k : string) (st st' : Reporter) : Prop :=
  dict_get k (variables st') = dict_get k (variables st) /\
  snapshots k st' = snapshots k st.

(** One series continues another: a list stays a list and does not get
    shorter, a per-id dict has more values at the end of each list it
    had. *)
Definition series_extends (s s' : Series) : Prop :=
  match s, s' with
  | Flat l, Flat l' => (length l <= length l')%nat
  | PerID d, PerID d' =>
      forall id l, dict_get id d = Some l ->
                   exists more, dict_get id d' = Some (l ++ more)
  | _, _ => False
  end.

(** The list buffered under [name], if there is one, has only got values
    added at its end. *)
Definition flat_extends (name : string) (st st' : Reporter) : Prop :=
  forall l, dict_get name (variables st) = Some (Flat l) ->
            exists more, dict_get name (variables st') = Some (Flat (l ++ more)).

(** From [st] to [st'] nothing was taken away: the clock record and the
    export folder are the same, folders, files and log lines were only
    added, the names of the store keep their order, and every series
    continues the one it was. *)
Definition grows (st st' : Reporter) : Prop :=
  timesteps st' = timesteps st /\
  export_folder st' = export_folder st /\
  (exists ds, disk_dirs st' = disk_dirs st ++ ds) /\
  (exists ws, disk_writes st' = disk_writes st ++ ws) /\
  (exists ns, logger_info st' = logger_info st ++ ns) /\
  (exists names, map fst (variables st') = map fst (variables st) ++ names) /\
  forall name s, dict_get name (variables st) = Some s ->
                 exists s', dict_get name (variables st') = Some s' /\
                            series_extends s s'.

(** The buffered values of one entity of a split name. *)
Definition per_id_series (name : string) (id : ID) (st : Reporter) : list Value :=
  match dict_get name (variables st) with
  | Some (PerID d) => match dict_get id d with
                      | Some l => l
                      | None => []
                      end
  | _ => []
  end.

(** The series buffered under [name] is a plain list. *)
Definition holds_list (name : string) (st : Reporter) : bool :=
  match dict_get name (variables st) with
  | Some (Flat _) => true
  | _ => false
  end.


(** The values a split directive hands to the store, entity by entity:
    each element of the attribute, reduced, then made native. *)
Fixpoint native_values (agents : AgentClass) (conf : Conf) (pairs : list (ID * Value))
    : option (list (ID * Value)) :=
  match pairs with
  | [] => Some []
  | (id, v) :: pairs' =>
      match apply_function v agents conf with
      | Ok raw =>
          match to_native raw, native_values agents conf pairs' with
          | Ok nv, Some rest => Some ((id, nv) :: rest)
          | _, _ => None
          end
      | Raise _ => None
      end
  end.

Definition split_values (m : Model) (conf : Conf) : option (list (ID * Value)) :=
  match c_type conf, agents m, c_varname conf with
  | Some type, Some all_agents, Some varname =>
      match dict_get type all_agents with
      | Some agents =>
          match dict_get varname (attrs agents), ids agents with
          | Some values, Some agent_ids =>
              match iterate values with
              | Ok admin => native_values agents conf (zip agent_ids admin)
              | Raise _ => None
              end
          | _, _ => None
          end
      | None => None
      end
  | _, _, _ => None
  end.

(** The values of the pairs whose id is [id], in order. *)
Definition values_of (id : ID) (pairs : list (ID * Value)) : list Value :=
  map snd (List.filter (fun p => bool_decide (fst p = id)) pairs).

(** The export of a directive is due at this call of [report_value]. *)
Definition export_due (m : Model) (conf : Conf) (save : string) : bool :=
  (wants_export save &&
   (negb (truthy (c_initial_only conf)) || Z.eqb (current_timestep m) 0))%bool.

(** The formats [report] writes. *)
Definition table_format (format : string) : bool :=
  (String.eqb format "csv" || String.eqb format "xlsx" || String.eqb format "npy")%bool.

(** What one file written by [report] looks like, for an item of the store. *)
Definition table_written (m : Model) (folder : string) (item : string * Series)
    (w : Write) : Prop :=
  w_snapshot w = false /\ w_name w = fst item /\
  exists conf format,
    dict_get (fst item) (directives m) = Some conf /\
    c_format conf = Some format /\
    table_format format = true /\
    w_path w = path_join folder (fst item +:+ "." +:+ format).

End Reporter.

(** ** A small world for the examples

    Entity ids are integers, a clock value is given by its ISO-8601 text,
    cupy is not installed, the whole-array reductions are those of
    int64 arrays, np.save refuses ragged lists, numba types no call
    beyond the embedded ones, and a frame is its index with its named
    columns. *)

Module Demo.

(** [str(z)] of an integer. *)
Definition decimal (z : Z) : string := NilZero.string_of_int (Z.to_int z).

Record Frame : Type := {
  frame_index : list string;
  frame_columns : list (string * list Value)
}.

Definition column_data (v : Value) : Result (list Value) :=
  match v with
  | PyList l => Ok l
  | NdArray _ a => Ok (map Py a)
  | Py _ => Raise (ValueError "If using all scalar values, you must pass an index")
  end.

Fixpoint columns_of (d : list (string * Value)) : Result (list (string * list Value)) :=
  match d with
  | [] => Ok []
  | (k, v) :: d' =>
      match column_data v, columns_of d' with
      | Ok col, Ok cols => Ok ((k, col) :: cols)
      | Raise e, _ => Raise e
      | _, Raise e => Raise e
      end
  end.

Definition same_length (cols : list (string * list Value)) : bool :=
  match cols with
  | [] => true
  | (_, c) :: cols' => forallb (fun kc => Nat.eqb (length (snd kc)) (length c)) cols'
  end.

Definition range_index (cols : list (string * list Value)) : list string :=
  match cols with
  | [] => []
  | (_, c) :: _ => map (fun i => decimal (Z.of_nat i)) (seq 0 (length c))
  end.

Definition from_dict (d : list (string * Value)) : Result Frame :=
  match columns_of d with
  | Raise e => Raise e
  | Ok cols =>
      if same_length cols
      then Ok {| frame_index := range_index cols; frame_columns := cols |}
      else Raise (ValueError "All arrays must be of the same length")
  end.

Definition set_index (df : Frame) (index : list string) : Result Frame :=
  if Nat.eqb (length index) (length (frame_index df))
  then Ok {| frame_index := index; frame_columns := frame_columns df |}
  else Raise (ValueError "Length mismatch")%string.

Definition new_frame (values : list Value) (index : list string) (columns : list string)
    : Result Frame :=
  match columns with
  | [c] =>
      if Nat.eqb (length values) (length index)
      then Ok {| frame_index := index; frame_columns := [(c, values)] |}
      else Raise (ValueError "Shape of passed values does not match the index")
  | _ => Raise (ValueError "Shape of passed values does not match the columns")
  end.

Definition int_sum (v : Value) : Result Z :=
  match v with
  | NdArray (np_int 64) a =>
      match (fix ints (a : list Scalar) : option (list Z) :=
               match a with
               | [] => Some []
               | PyInt z :: a' => match ints a' with
                                  | Some zs => Some (z :: zs)
                                  | None => None
                                  end
               | _ => None
               end) a with
      | Some zs => Ok (fold_left (add int64) zs 0)
      | None => Raise (TypeError "not an integer array")
      end
  | _ => Raise (TypeError "not an integer array")
  end.

Definition size_of (v : Value) : Z :=
  match v with NdArray _ a => Z.of_nat (length a) | _ => 1 end.

(** [id == s] for an integer id. *)
Definition equals_int (id : Z) (s : Scalar) : bool :=
  match s with
  | PyInt z => z =? id
  | PyBool b => Z.b2z b =? id
  | PyFloat f => PrimFloat.eqb f (float_of_int id)
  | _ => false
  end.

(** [id in l] for an integer id: an array of several elements has no
    truth value. *)
Fixpoint int_in_list (id : Z) (l : list Value) : Result bool :=
  match l with
  | [] => Ok false
  | v :: l' =>
      match v with
      | Py s | NdArray _ [s] => if equals_int id s then Ok true else int_in_list id l'
      | NdArray _ [] | PyList _ => int_in_list id l'
      | NdArray _ _ =>
          Raise (ValueError "The truth value of an array with more than one element is ambiguous. Use a.any() or a.all()")
      end
  end.

(** The shape NumPy gives a value; a ragged list has none. *)
Fixpoint shape (v : Value) : option (list nat) :=
  match v with
  | Py _ => Some []
  | NdArray _ a => Some [length a]
  | PyList l =>
      match map shape l with
      | [] => Some [0%nat]
      | Some s :: rest =>
          if forallb (fun o => bool_decide (o = Some s)) rest
          then Some (length l :: s) else None
      | None :: _ => None
      end
  end.

Definition save_error (v : Value) : option Exc :=
  match shape v with
  | Some _ => None
  | None =>
      Some (ValueError "setting an array element with a sequence. The requested array has an inhomogeneous shape")
  end.

#[local] Instance world : Collaborators := {|
  ID := Z;
  repr_ID := decimal;
  ID_hashable := fun _ => true;
  ID_index := Some;
  ID_in_list := int_in_list;
  Time := string;
  isoformat := fun t => t;
  cupy_imported := false;
  np_sum := fun v => match int_sum v with
                     | Ok z => Ok (NdArray (np_int 64) [PyInt z])
                     | Raise e => Raise e
                     end;
  np_mean := fun v => match int_sum v with
                      | Ok z => Ok (NdArray np_float64
                                      [PyFloat (true_divide int64 z (size_of v))])
                      | Raise e => Raise e
                      end;
  np_save_error := save_error;
  njit_other := fun _ _ _ _ =>
    Raise (TypeError "numba: no matching definition for the argument types");
  DataFrame := Frame;
  DataFrame_from_dict_ids := fun d => from_dict (map (fun kv => (decimal (fst kv), snd kv)) d);
  DataFrame_from_dict_times := from_dict;
  DataFrame_set_index := set_index;
  DataFrame_new := new_frame
|}.

(** Farmers with a wealth each, in two regions. *)
Definition farmers : AgentClass := {|
  attrs := [("wealth", NdArray (np_int 64) [PyInt 1; PyInt 2; PyInt 3; PyInt 4]);
            ("region", NdArray (np_int 64) [PyInt 0; PyInt 1; PyInt 0; PyInt 1]);
            ("debt", Py (PyFloat infinity))];
  ids := Some [10; 11; 12; 13]
|}.

Definition directive (function : Function) (save : string) (format : option string)
    (initial_only : option bool) : Conf := {|
  c_type := Some "farmers"; c_varname := Some "wealth";
  c_function := Some function; c_scale := None; c_ids := None;
  c_split := None; c_format := format; c_save := Some save;
  c_initial_only := initial_only; c_frequency := None
|}.

Definition model (directives : list (string * Conf)) (time : string) (timestep : Z)
    : Model := {|
  agents := Some [("farmers", farmers)];
  config := Some {| report_folder := "report"; cfg_report := Some directives |};
  current_time := time;
  current_timestep := timestep
|}.

(** A reporter that has not stepped yet. *)
Definition blank : Reporter := {|
  variables := []; timesteps := []; export_folder := "report";
  disk_dirs := ["report"]; disk_writes := []; logger_info := []
|}.

(** Total wealth, buffered only. *)
Definition total : Conf := directive (FStr "sum") "save" None None.

(** The wealth array, exported on the first step only. *)
Definition first_wealth : Conf := directive FNone "export" (Some "npy") (Some true).


Definition table : list (string * Conf) :=
  [("total", total); ("first_wealth", first_wealth)].

Definition day (n : Z) : Model :=
  model table ("2020-01-0" +:+ decimal (n + 1) +:+ "T00:00:00") n.

(** Wealth entity by entity, buffered. *)
Definition wealth_by_farmer : Conf := {|
  c_type := Some "farmers"; c_varname := Some "wealth";
  c_function := Some FNone; c_scale := None; c_ids := None;
  c_split := Some true; c_format := Some "csv"; c_save := Some "save";
  c_initial_only := None; c_frequency := None
|}.

(** Wealth summed per region, buffered. *)
Definition wealth_by_region (function : string) : Conf := {|
  c_type := Some "farmers"; c_varname := Some "wealth";
  c_function := Some (FStr function); c_scale := Some "region";
  c_ids := Some (NdArray (np_int 64) [PyInt 0; PyInt 1]);
  c_split := None; c_format := Some "csv"; c_save := Some "save";
  c_initial_only := None; c_frequency := None
|}.

(** The wealth array, exported at every step. *)
Definition wealth_export : Conf := directive FNone "export" (Some "npy") None.

(** A csv snapshot named 'initial'. *)
Definition initial_csv : Conf := {|
  c_type := Some "farmers"; c_varname := Some "wealth";
  c_function := Some FNone; c_scale := None; c_ids := None;
  c_split := None; c_format := Some "csv"; c_save := Some "export";
  c_initial_only := None; c_frequency := Some "initial_only"
|}.

(** Saved and exported, but without a format. *)
Definition no_format : Conf := directive FNone "save+export" None None.

Definition split_table : list (string * Conf) :=
  [("by_farmer", wealth_by_farmer); ("wealth", wealth_export)].

Definition split_day (n : Z) : Model :=
  model split_table ("2020-01-0" +:+ decimal (n + 1) +:+ "T00:00:00") n.


(** An attribute the farmers do not have. *)
Definition height : Conf := {|
  c_type := Some "farmers"; c_varname := Some "height";
  c_function := Some FNone; c_scale := None; c_ids := None;
  c_split := None; c_format := Some "csv"; c_save := Some "save";
  c_initial_only := None; c_frequency := None
|}.

End Demo.

(** ** Facts about the kernels *)

Lemma index_in_range (n : nat) (i : Z) :
  0 <= i < Z.of_nat n -> index n i = Some (Z.to_nat i).
Proof.
  intros [Hlo Hhi]. unfold index.
  apply Z.leb_le in Hlo. apply Z.ltb_lt in Hhi.
  rewrite Hlo, Hhi. reflexivity.
Qed.

Lemma index_from_end (n : nat) (i : Z) :
  - Z.of_nat n <= i < Z.of_nat n -> exists k, index n i = Some k /\ (k < n)%nat.
Proof.
  intros [Hlo Hhi]. unfold index.
  destruct (0 <=? i) eqn:E0; simpl.
  - apply Z.ltb_lt in Hhi. rewrite Hhi. exists (Z.to_nat i). split; [reflexivity|].
    apply Z.leb_le in E0. apply Z.ltb_lt in Hhi. lia.
  - apply Z.leb_gt in E0.
    assert (H1 : (- Z.of_nat n <=? i) = true) by (apply Z.leb_le; lia).
    assert (H2 : (i <? 0) = true) by (apply Z.ltb_lt; lia).
    rewrite H1, H2. simpl. eexists. split; [reflexivity|]. lia.
Qed.


Lemma wrap32_small (z : Z) : 0 <= z < 2 ^ 31 -> wrap32 z = z.
Proof.
  intros H. unfold wrap32, wrap.
  change (2 ^ (32 - 1)) with 2147483648 in *.
  change (2 ^ 32) with 4294967296.
  change (2 ^ 31) with 2147483648 in H.
  rewrite Z.mod_small; lia.
Qed.

Lemma wrap64_idem_add (x y : Z) : wrap64 (wrap64 x + y) = wrap64 (x + y).
Proof.
  unfold wrap64, wrap.
  change (2 ^ (64 - 1)) with 9223372036854775808.
  change (2 ^ 64) with 18446744073709551616.
  f_equal.
  replace ((x + 9223372036854775808) mod 18446744073709551616
             - 9223372036854775808 + y + 9223372036854775808)
    with ((x + 9223372036854775808) mod 18446744073709551616 + y) by lia.
  rewrite Zplus_mod_idemp_l. f_equal. lia.
Qed.

Section ReducerFacts.

Variable D : DType.

Lemma members_nil_r (values : list (elt D)) (g : Z) : members D values [] g = [].
Proof. destruct values; reflexivity. Qed.

(** The loop of [sum_per_ID] on ids inside the array: every slot ends
    with its start value plus the group's members, in array order. *)
Lemma sum_loop_spec (values : list (elt D)) :
  forall (group_ids : list Z) (acc : list (elt D)) (n_groups : Z),
    length values = length group_ids ->
    n_groups = Z.of_nat (length acc) ->
    Forall (fun g => 0 <= g < n_groups) group_ids ->
    exists out,
      sum_loop D values group_ids n_groups acc = Ok out /\
      length out = length acc /\
      forall (k : nat) (a : elt D),
        acc !! k = Some a ->
        out !! k = Some (fold_left (add D) (members D values group_ids (Z.of_nat k)) a).
Proof.
  induction values as [|v values IH]; intros group_ids acc n_groups Hlen Hn Hall.
  - destruct group_ids; [|discriminate]. exists acc. simpl. auto.
  - destruct group_ids as [|g group_ids]; [discriminate|].
    inversion Hall as [|? ? Hg Hall']; subst.
    simpl. destruct (Z.ltb_spec g (Z.of_nat (length acc))) as [_|Hbad]; [|lia].
    rewrite index_in_range by exact Hg.
    set (acc' := alter (fun s => add D s v) (Z.to_nat g) acc).
    assert (Hlen' : length acc' = length acc) by apply length_alter.
    destruct (IH group_ids acc' (Z.of_nat (length acc))) as (out & Hout & Hl & Hslots).
    + simpl in Hlen. lia.
    + rewrite Hlen'. reflexivity.
    + exact Hall'.
    + exists out. split; [exact Hout|]. split; [lia|].
      intros k a Hk. destruct (Z.eqb_spec g (Z.of_nat k)) as [->|Hne].
      * rewrite (Hslots k (add D a v)); [reflexivity|].
        unfold acc'. rewrite Nat2Z.id, list_lookup_alter_eq, Hk. reflexivity.
      * apply Hslots. unfold acc'. rewrite list_lookup_alter_ne; [exact Hk|lia].
Qed.

(** An id at or above [n_groups] stops the loop with the assertion, as
    long as every id before it addresses a slot. *)
Lemma sum_loop_assert (values : list (elt D)) :
  forall (group_ids : list Z) (acc : list (elt D)) (n_groups : Z),
    length values = length group_ids ->
    n_groups = Z.of_nat (length acc) ->
    Forall (fun g => - n_groups <= g) group_ids ->
    Exists (fun g => n_groups <= g) group_ids ->
    sum_loop D values group_ids n_groups acc = Raise AssertionError.
Proof.
  induction values as [|v values IH]; intros group_ids acc n_groups Hlen Hn Hall Hex.
  - destruct group_ids; [inversion Hex|discriminate].
  - destruct group_ids as [|g group_ids]; [discriminate|].
    inversion Hall as [|? ? Hg Hall']; subst.
    simpl. destruct (Z.ltb_spec g (Z.of_nat (length acc))) as [Hlt|Hge]; [|reflexivity].
    destruct (index_from_end (length acc) g) as (k & -> & _); [lia|].
    apply IH.
    + simpl in Hlen. lia.
    + rewrite length_alter. reflexivity.
    + exact Hall'.
    + inversion Hex; subst; [lia|assumption].
Qed.

(** [mean_per_ID] runs the loop of [sum_per_ID] with a counter beside it. *)
Lemma mean_loop_sums (values : list (elt D)) :
  forall (group_ids : list Z) (n_groups : Z) (counts : list Z) (sums : list (elt D)),
    length counts = length sums ->
    match mean_loop D values group_ids n_groups counts sums with
    | Ok (counts', sums') =>
        sum_loop D values group_ids n_groups sums = Ok sums' /\
        length counts' = length counts
    | Raise e => sum_loop D values group_ids n_groups sums = Raise e
    end.
Proof.
  induction values as [|v values IH]; intros group_ids n_groups counts sums Hlen.
  - simpl. auto.
  - destruct group_ids as [|g group_ids]; [simpl; auto|].
    simpl. destruct (g <? n_groups); [|reflexivity].
    assert (Hidx : index (length counts) g = index (length sums) g)
      by (rewrite Hlen; reflexivity).
    rewrite Hidx. destruct (index (length sums) g) as [k|]; [|apply IH; exact Hlen].
    specialize (IH group_ids n_groups
                   (alter (fun c => wrap32 (c + 1)) k counts)
                   (alter (fun s => add D s v) k sums)).
    rewrite !length_alter in IH. specialize (IH Hlen).
    destruct (mean_loop D values group_ids n_groups _ _) as [[c s]|e]; [|exact IH].
    destruct IH as [IH1 IH2]. split; [exact IH1|congruence].
Qed.

Lemma group_count_cons (g : Z) (group_ids : list Z) (k : Z) :
  group_count (g :: group_ids) k =
  (if g =? k then 1 else 0) + group_count group_ids k.
Proof.
  unfold group_count. simpl List.filter. destruct (g =? k); simpl length; lia.
Qed.

(** The counter of [mean_per_ID]: while it stays below 2^31 it is the
    number of members seen. *)
Lemma mean_loop_counts (values : list (elt D)) :
  forall (group_ids : list Z) (n_groups : Z) (counts counts' : list Z)
         (sums sums' : list (elt D)),
    n_groups = Z.of_nat (length counts) ->
    length counts = length sums ->
    Forall (fun g => 0 <= g < n_groups) group_ids ->
    mean_loop D values group_ids n_groups counts sums = Ok (counts', sums') ->
    forall (k : nat) (c : Z),
      counts !! k = Some c ->
      0 <= c ->
      c + Z.of_nat (length values) < 2147483648 ->
      length values = length group_ids ->
      counts' !! k = Some (c + group_count group_ids (Z.of_nat k)).
Proof.
  induction values as [|v values IH];
    intros group_ids n_groups counts counts' sums sums' Hn Hlen Hall Hrun k c Hk Hc Hsmall Hl.
  - destruct group_ids; [|discriminate]. simpl in Hrun. inversion Hrun; subst.
    unfold group_count. simpl. rewrite Z.add_0_r. exact Hk.
  - destruct group_ids as [|g group_ids]; [discriminate|].
    inversion Hall as [|? ? Hg Hall']; subst.
    simpl in Hrun. destruct (Z.ltb_spec g (Z.of_nat (length counts))) as [_|Hbad]; [|lia].
    rewrite <- Hlen in Hrun. rewrite index_in_range in Hrun by exact Hg.
    simpl length in Hsmall, Hl. rewrite Nat2Z.inj_succ in Hsmall.
    rewrite group_count_cons.
    destruct (Z.eqb_spec g (Z.of_nat k)) as [->|Hne].
    + rewrite Nat2Z.id in Hrun. rewrite Z.add_assoc.
      eapply IH; [ | | | exact Hrun | | | | ].
      * rewrite length_alter. reflexivity.
      * rewrite !length_alter. exact Hlen.
      * exact Hall'.
      * rewrite list_lookup_alter_eq, Hk. simpl. f_equal.
        apply wrap32_small. change (2 ^ 31) with 2147483648. lia.
      * lia.
      * lia.
      * lia.
    + rewrite Z.add_0_l.
      eapply IH; [ | | | exact Hrun | | | | ].
      * rewrite length_alter. reflexivity.
      * rewrite !length_alter. exact Hlen.
      * exact Hall'.
      * rewrite list_lookup_alter_ne; [exact Hk|lia].
      * lia.
      * lia.
      * lia.
Qed.

Lemma group_count_bound (group_ids : list Z) (g : Z) :
  0 <= group_count group_ids g <= Z.of_nat (length group_ids).
Proof.
  induction group_ids as [|i group_ids IH].
  - unfold group_count. simpl. lia.
  - rewrite group_count_cons. simpl length. destruct (i =? g); lia.
Qed.

(** No member with id [g] means nothing was added to slot [g]. *)
Lemma members_empty (values : list (elt D)) :
  forall (group_ids : list Z) (g : Z),
    group_count group_ids g = 0 -> members D values group_ids g = [].
Proof.
  induction values as [|v values IH]; intros group_ids g H; [reflexivity|].
  destruct group_ids as [|i group_ids]; [reflexivity|].
  unfold group_count in H. simpl in *.
  destruct (i =? g); [simpl in H; lia|].
  apply IH. exact H.
Qed.

End ReducerFacts.

(** ** The reducers meet their contract *)

Lemma zeros_ok {A} (n : Z) (z : A) :
  0 <= n -> zeros n z = Ok (replicate (Z.to_nat n) z).
Proof.
  intros H. unfold zeros. destruct (Z.ltb_spec n 0); [lia|reflexivity].
Qed.

Lemma int64_fold_wrap (l : list Z) :
  forall a : Z,
    fold_left (add int64) l (wrap64 a) = wrap64 (a + fold_right Z.add 0 l).
Proof.
  induction l as [|x l IH]; intros a; simpl.
  - rewrite Z.add_0_r. reflexivity.
  - rewrite wrap64_idem_add, IH. f_equal. lia.
Qed.

(** On int64 arrays the group sum is the mathematical sum, reduced to
    64 bits two's complement. *)
Lemma int64_group_sum (values group_ids : list Z) (g : Z) :
  group_sum int64 values group_ids g =
  wrap64 (fold_right Z.add 0 (members int64 values group_ids g)).
Proof.
  unfold group_sum. change (zero int64) with (wrap64 0).
  rewrite int64_fold_wrap. reflexivity.
Qed.

Lemma sum_per_ID_slots (D : DType) (values : list (elt D)) (group_ids : list Z)
    (n_groups : Z) :
  length values = length group_ids ->
  0 <= n_groups ->
  Forall (fun g => 0 <= g < n_groups) group_ids ->
  exists out,
    sum_per_ID D values group_ids n_groups = Ok out /\
    length out = Z.to_nat n_groups /\
    forall g, 0 <= g < n_groups ->
      out !! Z.to_nat g = Some (group_sum D values group_ids g).
Proof.
  intros Hlen Hn Hall. unfold sum_per_ID.
  rewrite Hlen, Nat.eqb_refl, zeros_ok by exact Hn.
  destruct (sum_loop_spec D values group_ids (replicate (Z.to_nat n_groups) (zero D)) n_groups)
    as (out & Hout & Hl & Hslots); auto.
  - rewrite length_replicate. lia.
  - exists out. split; [exact Hout|]. rewrite length_replicate in Hl.
    split; [exact Hl|]. intros g Hg.
    rewrite (Hslots (Z.to_nat g) (zero D)).
    + rewrite Z2Nat.id by lia. reflexivity.
    + apply lookup_replicate_2. lia.
Qed.

Lemma wrap64_small (z : Z) : - 2 ^ 63 <= z < 2 ^ 63 -> wrap64 z = z.
Proof.
  intros H. unfold wrap64, wrap.
  change (2 ^ (64 - 1)) with 9223372036854775808.
  change (2 ^ 64) with 18446744073709551616.
  change (2 ^ 63) with 9223372036854775808 in H.
  rewrite Z.mod_small; lia.
Qed.

(** C5 (amended): on equal-length arrays with every group id in [0, N),
    sum_per_ID returns an array of length N whose slot g is the sum of
    the values with group id g accumulated in array order in the
    arithmetic of the array's dtype, and is zero for a group without
    members; on an int64 array that is the arithmetic sum reduced to 64
    bits two's complement, hence the arithmetic sum itself whenever this
    fits in 64 bits; sum_per_ID([1,2,3,4], [0,1,0,1], 2) is [4,6]. *)
Theorem sum_per_ID_correct (D : DType) (values : list (elt D))
    (group_ids : list Z) (n_groups : Z) :
  length values = length group_ids ->
  0 <= n_groups ->
  Forall (fun g => 0 <= g < n_groups) group_ids ->
  (exists out,
     sum_per_ID D values group_ids n_groups = Ok out /\
     length out = Z.to_nat n_groups /\
     forall g, 0 <= g < n_groups ->
       out !! Z.to_nat g = Some (group_sum D values group_ids g) /\
       (group_count group_ids g = 0 -> out !! Z.to_nat g = Some (zero D))) /\
  (forall (vs gs : list Z) (g : Z),
     group_sum int64 vs gs g = wrap64 (fold_right Z.add 0 (members int64 vs gs g)) /\
     (- 2 ^ 63 <= fold_right Z.add 0 (members int64 vs gs g) < 2 ^ 63 ->
      group_sum int64 vs gs g = fold_right Z.add 0 (members int64 vs gs g))) /\
  sum_per_ID int64 [1; 2; 3; 4] [0; 1; 0; 1] 2 = Ok [4; 6].
Proof.
  intros Hlen Hn Hall. split; [|split; [|reflexivity]].
  2:{ intros vs gs g. split; [apply int64_group_sum|].
      intros Hfit. rewrite int64_group_sum. apply wrap64_small. exact Hfit. }
  destruct (sum_per_ID_slots D values group_ids n_groups Hlen Hn Hall)
    as (out & Hout & Hl & Hslots).
  exists out. split; [exact Hout|]. split; [exact Hl|].
  intros g Hg. split; [apply Hslots; exact Hg|].
  intros Hempty. rewrite (Hslots g Hg). unfold group_sum.
  rewrite (members_empty D values group_ids g Hempty). reflexivity.
Qed.

(** C5 on an int64 array with an empty third group. *)
Lemma sum_per_ID_correct_witness :
  exists out,
    sum_per_ID int64 [5; -2; 7] [1; 1; 0] 3 = Ok out /\
    out !! 1%nat = Some 3 /\ out !! 2%nat = Some 0.
Proof.
  destruct (sum_per_ID_correct int64 [5; -2; 7] [1; 1; 0] 3) as [(out & Hout & _ & Hslots) _].
  - reflexivity.
  - lia.
  - repeat constructor; lia.
  - exists out. split; [exact Hout|]. split.
    + apply (Hslots 1). lia.
    + apply (Hslots 2); [lia|reflexivity].
Defined.

(** C5, counterexample: two int64 values of one group whose arithmetic
    sum is 2^63 do not fit; the slot holds -2^63. *)
Lemma sum_per_ID_wraps_around :
  sum_per_ID int64 [9223372036854775807; 1] [0; 0] 1 = Ok [-9223372036854775808] /\
  fold_right Z.add 0 (members int64 [9223372036854775807; 1] [0; 0] 0)
  = 9223372036854775808.
Proof. split; reflexivity. Qed.

(** For both dtypes of the kernels, zero divided by a zero count is NaN. *)
Lemma zero_over_zero_is_nan :
  PrimFloat.is_nan (true_divide float64 (zero float64) 0) = true /\
  PrimFloat.is_nan (true_divide int64 (zero int64) 0) = true.
Proof. split; reflexivity. Qed.

(** C6 (amended): on equal-length arrays of fewer than 2^31 elements with
    every group id in [0, N), mean_per_ID returns, in slot g, the slot g
    of sum_per_ID divided by the number of indices with group id g; when
    that number is zero the slot is the dtype's 0/0, which is not finite. *)
Theorem mean_per_ID_correct (D : DType) (values : list (elt D))
    (group_ids : list Z) (n_groups : Z) :
  length values = length group_ids ->
  0 <= n_groups ->
  Forall (fun g => 0 <= g < n_groups) group_ids ->
  Z.of_nat (length values) < 2 ^ 31 ->
  PrimFloat.is_finite (true_divide D (zero D) 0) = false ->
  exists means sums,
    mean_per_ID D values group_ids n_groups = Ok means /\
    sum_per_ID D values group_ids n_groups = Ok sums /\
    length means = Z.to_nat n_groups /\
    forall g, 0 <= g < n_groups ->
      exists s m,
        sums !! Z.to_nat g = Some s /\
        means !! Z.to_nat g = Some m /\
        m = true_divide D s (group_count group_ids g) /\
        (group_count group_ids g = 0 -> PrimFloat.is_finite m = false).
Proof.
  intros Hlen Hn Hall Hsmall Hnan.
  change (2 ^ 31) with 2147483648 in Hsmall.
  destruct (sum_per_ID_slots D values group_ids n_groups Hlen Hn Hall)
    as (sums & Hsums & Hl & Hslots).
  unfold mean_per_ID. rewrite Hlen, Nat.eqb_refl, !zeros_ok by exact Hn.
  pose proof (mean_loop_sums D values group_ids n_groups
                (replicate (Z.to_nat n_groups) 0)
                (replicate (Z.to_nat n_groups) (zero D))) as Hrel.
  rewrite !length_replicate in Hrel. specialize (Hrel eq_refl).
  unfold sum_per_ID in Hsums.
  rewrite Hlen, Nat.eqb_refl, zeros_ok in Hsums by exact Hn.
  destruct (mean_loop D values group_ids n_groups _ _) as [[counts sums']|e] eqn:Hrun;
    [|congruence].
  destruct Hrel as [Hsame Hlc].
  assert (sums' = sums) by congruence. subst sums'.
  exists (zip_with (true_divide D) sums counts), sums.
  split; [reflexivity|]. split.
  { unfold sum_per_ID. rewrite Hlen, Nat.eqb_refl, zeros_ok by exact Hn. exact Hsums. }
  split.
  { rewrite length_zip_with. lia. }
  intros g Hg.
  assert (Hc : counts !! Z.to_nat g = Some (0 + group_count group_ids (Z.of_nat (Z.to_nat g)))).
  { eapply (mean_loop_counts D values); [ | | | exact Hrun | | | | ].
    - rewrite length_replicate. lia.
    - rewrite !length_replicate. reflexivity.
    - exact Hall.
    - apply lookup_replicate_2. lia.
    - lia.
    - lia.
    - exact Hlen. }
  rewrite Z2Nat.id, Z.add_0_l in Hc by lia.
  exists (group_sum D values group_ids g),
         (true_divide D (group_sum D values group_ids g) (group_count group_ids g)).
  split; [apply Hslots; exact Hg|]. split.
  { rewrite lookup_zip_with, (Hslots g Hg), Hc. reflexivity. }
  split; [reflexivity|].
  intros Hempty. unfold group_sum.
  rewrite (members_empty D values group_ids g Hempty), Hempty. exact Hnan.
Qed.

(** C6 on the scenario of the reducers, with an empty third group. *)
Lemma mean_per_ID_correct_witness :
  exists means,
    mean_per_ID float64 [1; 2; 3; 4]%float [0; 1; 0; 1] 3 = Ok means /\
    means !! 0%nat = Some 2%float /\
    (forall m, means !! 2%nat = Some m -> PrimFloat.is_finite m = false).
Proof.
  destruct (mean_per_ID_correct float64 [1; 2; 3; 4]%float [0; 1; 0; 1] 3)
    as (means & sums & Hm & Hs & _ & Hslots).
  - reflexivity.
  - lia.
  - repeat constructor; lia.
  - reflexivity.
  - reflexivity.
  - exists means. split; [exact Hm|].
    vm_compute in Hm. inversion Hm; subst means. split; [reflexivity|].
    intros m Hm2. destruct (Hslots 2) as (s & m' & _ & Hm2' & _ & Hnf); [lia|].
    change (Z.to_nat 2) with 2%nat in Hm2'. rewrite Hm2 in Hm2'.
    inversion Hm2'; subst m'. apply Hnf. reflexivity.
Defined.

(** C6, counterexample: two finite float64 values of one group whose sum
    overflows give an infinite mean although the group has two members. *)
Lemma mean_per_ID_nonfinite_nonempty :
  Forall (fun x => PrimFloat.is_finite x = true)
    [0x1.fffffffffffffp+1023; 0x1.fffffffffffffp+1023]%float /\
  exists means m,
    mean_per_ID float64
      [0x1.fffffffffffffp+1023; 0x1.fffffffffffffp+1023]%float [0; 0] 1 = Ok means /\
    means !! 0%nat = Some m /\
    PrimFloat.is_finite m = false /\
    group_count [0; 0] 0 = 2.
Proof.
  split; [repeat constructor|].
  exists [infinity], infinity. repeat split; reflexivity.
Qed.

(** C3 (amended): both reducers stop with the assertion error when the
    two arrays differ in length, and when, on equal lengths and a
    non-negative group count N, some group id is at least N while no id
    is below -N. *)
Theorem reducers_assert_bounds (D : DType) (values : list (elt D))
    (group_ids : list Z) (n_groups : Z) :
  length values <> length group_ids \/
  (length values = length group_ids /\ 0 <= n_groups /\
   Forall (fun g => - n_groups <= g) group_ids /\
   Exists (fun g => n_groups <= g) group_ids) ->
  sum_per_ID D values group_ids n_groups = Raise AssertionError /\
  mean_per_ID D values group_ids n_groups = Raise AssertionError.
Proof.
  intros [Hne|(Hlen & Hn & Hall & Hex)].
  - unfold sum_per_ID, mean_per_ID.
    destruct (Nat.eqb_spec (length values) (length group_ids)); [contradiction|].
    split; reflexivity.
  - assert (Hs : sum_loop D values group_ids n_groups
                   (replicate (Z.to_nat n_groups) (zero D)) = Raise AssertionError).
    { apply sum_loop_assert; auto. rewrite length_replicate. lia. }
    unfold sum_per_ID, mean_per_ID.
    rewrite Hlen, Nat.eqb_refl, !zeros_ok by exact Hn.
    split; [exact Hs|].
    pose proof (mean_loop_sums D values group_ids n_groups
                  (replicate (Z.to_nat n_groups) 0)
                  (replicate (Z.to_nat n_groups) (zero D))) as Hrel.
    rewrite !length_replicate in Hrel. specialize (Hrel eq_refl).
    destruct (mean_loop D values group_ids n_groups _ _) as [[c s]|e].
    + destruct Hrel as [Hrel _]. congruence.
    + congruence.
Qed.

(** C3 on ids [0, -1, 2] for two groups: the assertion stops at id 2. *)
Lemma reducers_assert_bounds_witness :
  sum_per_ID int64 [1; 2; 3] [0; -1; 2] 2 = Raise AssertionError /\
  mean_per_ID int64 [1; 2; 3] [0; -1; 2] 2 = Raise AssertionError.
Proof.
  apply (reducers_assert_bounds int64 [1; 2; 3] [0; -1; 2] 2).
  right. split; [reflexivity|]. split; [lia|]. split.
  - repeat constructor; lia.
  - apply Exists_cons_tl, Exists_cons_tl, Exists_cons_hd. lia.
Defined.

(** C3, counterexample: the group id -1 is outside [0, 2), yet both
    reducers return a result; the value lands in the last group. *)
Lemma reducers_accept_negative_id :
  sum_per_ID int64 [1; 2] [0; -1] 2 = Ok [1; 2] /\
  mean_per_ID int64 [1; 2] [0; -1] 2 = Ok [1; 2]%float.
Proof. split; reflexivity. Qed.

(** ** Facts about the reporter *)

Section DictFacts.

Context {K V : Type} `{EqDecision K}.

Lemma dict_get_set_eq (k : K) (v : V) (d : list (K * V)) :
  dict_get k (dict_set k v d) = Some v.
Proof.
  induction d as [|[k' v'] d IH]; simpl.
  - destruct (decide (k = k)); [reflexivity|contradiction].
  - destruct (decide (k = k')) as [->|Hne]; simpl.
    + destruct (decide (k' = k')); [reflexivity|contradiction].
    + destruct (decide (k = k')); [contradiction|exact IH].
Qed.

Lemma dict_get_set_ne (k k' : K) (v : V) (d : list (K * V)) :
  k <> k' -> dict_get k (dict_set k' v d) = dict_get k d.
Proof.
  intros Hne. induction d as [|[k0 v0] d IH]; simpl.
  - destruct (decide (k = k')); [contradiction|reflexivity].
  - destruct (decide (k' = k0)) as [->|Hne0]; simpl.
    + destruct (decide (k = k0)); [contradiction|reflexivity].
    + destruct (decide (k = k0)); [reflexivity|exact IH].
Qed.

End DictFacts.

Section ReporterFacts.

Context `{C : Collaborators}.

Ltac run_monad :=
  unfold bind, get, modify, lift, raise, ret in *; simpl in *.

Lemma same_for_refl (k : string) (st : Reporter) : same_for k st st.
Proof. split; reflexivity. Qed.

Lemma same_for_trans (k : string) (st1 st2 st3 : Reporter) :
  same_for k st1 st2 -> same_for k st2 st3 -> same_for k st1 st3.
Proof. intros [A1 A2] [B1 B2]. split; congruence. Qed.

Lemma snapshots_write (k : string) (w : Write) (st st' : Reporter) :
  disk_writes st' = disk_writes st ++ [w] ->
  snapshots k st' =
  (snapshots k st + (if (w_snapshot w && String.eqb (w_name w) k)%bool then 1 else 0))%nat.
Proof.
  intros Hw. unfold snapshots. rewrite Hw, List.filter_app, length_app. simpl.
  destruct (w_snapshot w && String.eqb (w_name w) k)%bool; reflexivity.
Qed.

Lemma snapshots_same (k : string) (st st' : Reporter) :
  disk_writes st' = disk_writes st -> snapshots k st' = snapshots k st.
Proof. intros Hw. unfold snapshots. rewrite Hw. reflexivity. Qed.

Lemma for_each_app {A} (xs ys : list A) (body : A -> M unit) (st : Reporter) :
  for_each (xs ++ ys) body st =
  match for_each xs body st with
  | (Ok _, st') => for_each ys body st'
  | (Raise e, st') => (Raise e, st')
  end.
Proof.
  revert st. induction xs as [|x xs IH]; intros st; simpl.
  - reflexivity.
  - unfold bind. destruct (body x st) as [[[]|e] st']; [apply IH|reflexivity].
Qed.

Lemma for_each_preserves {A} (R : Reporter -> Reporter -> Prop) (xs : list A)
    (body : A -> M unit) :
  (forall st, R st st) ->
  (forall a b c, R a b -> R b c -> R a c) ->
  (forall x st, In x xs -> R st (snd (body x st))) ->
  forall st, R st (snd (for_each xs body st)).
Proof.
  intros Hrefl Htrans. induction xs as [|x xs IH]; intros Hbody st; simpl.
  - apply Hrefl.
  - unfold bind. pose proof (Hbody x st (or_introl eq_refl)) as Hx.
    destruct (body x st) as [[[]|e] st']; simpl in *; [|exact Hx].
    eapply Htrans; [exact Hx|]. apply IH. intros y st0 Hy. apply Hbody. right. exact Hy.
Qed.

(** *** [export_value] *)

Lemma export_value_effect (n : string) (value : Value) (conf : Conf) (st : Reporter) :
  variables (snd (export_value (NameStr n) value conf st)) = variables st /\
  timesteps (snd (export_value (NameStr n) value conf st)) = timesteps st /\
  match fst (export_value (NameStr n) value conf st) with
  | Ok _ => exists w, disk_writes (snd (export_value (NameStr n) value conf st))
                      = disk_writes st ++ [w] /\
                      w_snapshot w = true /\ w_name w = n
  | Raise _ =>
      disk_writes (snd (export_value (NameStr n) value conf st)) = disk_writes st \/
      exists w, disk_writes (snd (export_value (NameStr n) value conf st))
                = disk_writes st ++ [w] /\
                w_snapshot w = true /\ w_name w = n /\ w_content w = EmptyFile
  end.
Proof.
  unfold export_value. run_monad.
  destruct (c_format conf) as [format|]; simpl; [|auto].
  destruct (snapshot_filename conf st) as [fn|e]; simpl; [|auto].
  destruct (String.eqb format "npy"); simpl.
  { destruct (np_save_error value) as [e|]; simpl.
    - split; [reflexivity|]. split; [reflexivity|]. right.
      eexists. split; [reflexivity|]. auto.
    - split; [reflexivity|]. split; [reflexivity|].
      eexists. split; [reflexivity|]. auto. }
  destruct (String.eqb format "csv"); simpl; [|auto].
  destruct (csv_items value) as [lines|e]; simpl; [|auto].
  destruct (100000 <? Z.of_nat (length lines)); simpl;
    (split; [reflexivity|]; split; [reflexivity|]; eexists; split; [reflexivity|]; auto).
Qed.

Lemma export_value_tuple (n : string) (id : ID) (value : Value) (conf : Conf)
    (st : Reporter) :
  exists e, export_value (NameTuple n id) value conf st = (Raise e, st).
Proof. eexists. reflexivity. Qed.

Lemma export_value_frame (k : string) (name : Name) (value : Value) (conf : Conf)
    (st : Reporter) :
  base name <> k -> same_for k st (snd (export_value name value conf st)).
Proof.
  intros Hne. destruct name as [n|n id].
  - destruct (export_value_effect n value conf st) as (Hv & _ & Hw).
    split; [rewrite Hv; reflexivity|].
    destruct (fst (export_value (NameStr n) value conf st)).
    + destruct Hw as (w & Hw & _ & Hn). rewrite (snapshots_write k w st _ Hw).
      simpl in Hne. rewrite Hn.
      destruct (String.eqb_spec n k); [contradiction|].
      rewrite andb_false_r. lia.
    + destruct Hw as [Hw|(w & Hw & _ & Hn & _)]; [apply snapshots_same; exact Hw|].
      rewrite (snapshots_write k w st _ Hw).
      simpl in Hne. rewrite Hn.
      destruct (String.eqb_spec n k); [contradiction|].
      rewrite andb_false_r. lia.
  - apply same_for_refl.
Qed.

(** *** [append_value] and [report_value] *)

Ltac split_cases :=
  repeat match goal with
         | |- context [match ?x with _ => _ end] => destruct x; simpl
         end.

(** [append_value] touches the store only, and there only the series of
    its own name. *)
Lemma append_value_effect (name : Name) (value : Value) (st : Reporter) :
  timesteps (snd (append_value name value st)) = timesteps st /\
  export_folder (snd (append_value name value st)) = export_folder st /\
  disk_dirs (snd (append_value name value st)) = disk_dirs st /\
  disk_writes (snd (append_value name value st)) = disk_writes st /\
  logger_info (snd (append_value name value st)) = logger_info st /\
  (variables (snd (append_value name value st)) = variables st \/
   exists series,
     variables (snd (append_value name value st))
     = dict_set (base name) series (variables st)).
Proof.
  unfold append_value. run_monad.
  destruct name as [n|n id]; simpl; split_cases;
    repeat (split; [reflexivity|]);
    first [left; reflexivity | right; eexists; reflexivity].
Qed.

Lemma append_value_frame (k : string) (name : Name) (value : Value) (st : Reporter) :
  base name <> k -> same_for k st (snd (append_value name value st)).
Proof.
  intros Hne.
  destruct (append_value_effect name value st) as (_ & _ & _ & Hw & _ & Hv).
  split; [|apply snapshots_same; exact Hw].
  destruct Hv as [->|(series & ->)]; [reflexivity|].
  apply dict_get_set_ne. congruence.
Qed.

Lemma append_value_writes (name : Name) (value : Value) (st : Reporter) :
  disk_writes (snd (append_value name value st)) = disk_writes st.
Proof. apply append_value_effect. Qed.

Lemma append_value_str (n : string) (value : Value) (st st' : Reporter) :
  append_value (NameStr n) value st = (Ok tt, st') ->
  dict_get n (variables st') = Some (Flat (flat_series n st ++ [value])).
Proof.
  unfold append_value, flat_series. run_monad.
  destruct (dict_get n (variables st)) as [[l|d]|]; intros Heq;
    inversion Heq; subst; simpl; try apply dict_get_set_eq.
Qed.

Lemma bind_same_for {A B} (k : string) (c : M A) (f : A -> M B) (st : Reporter) :
  (forall st0, same_for k st0 (snd (c st0))) ->
  (forall a st0, same_for k st0 (snd (f a st0))) ->
  same_for k st (snd (bind c f st)).
Proof.
  intros Hc Hf. unfold bind. specialize (Hc st).
  destruct (c st) as [[a|e] st1]; simpl in *; [|exact Hc].
  eapply same_for_trans; [exact Hc|apply Hf].
Qed.

Lemma report_value_frame (k : string) (m : Model) (name : Name) (value : Value)
    (conf : Conf) (st : Reporter) :
  base name <> k -> same_for k st (snd (report_value m name value conf st)).
Proof.
  intros Hne. unfold report_value.
  apply bind_same_for; [intros; apply same_for_refl|]. clear st. intros v st.
  destruct (c_save conf) as [save|]; [|apply same_for_refl].
  destruct (negb _); [apply same_for_refl|].
  apply bind_same_for; clear st.
  - intros st. destruct (wants_export save); [|apply same_for_refl].
    destruct (truthy (c_initial_only conf)).
    + destruct (current_timestep m =? 0); [|apply same_for_refl].
      apply export_value_frame; exact Hne.
    + apply export_value_frame; exact Hne.
  - intros _ st. destruct (wants_save save); [|apply same_for_refl].
    apply append_value_frame; exact Hne.
Qed.

Lemma save_policy_valid (save : string) :
  (wants_export save || wants_save save)%bool = true ->
  negb (String.eqb save "save" || String.eqb save "export"
        || String.eqb save "save+export")%bool = false.
Proof.
  unfold wants_export, wants_save.
  destruct (String.eqb save "save"), (String.eqb save "export"),
    (String.eqb save "save+export"); simpl; congruence.
Qed.

(** A successful [report_value] under a string name: what it buffered
    and how many snapshots it wrote. *)
Lemma report_value_own (m : Model) (n : string) (value : Value) (conf : Conf)
    (st st1 : Reporter) :
  report_value m (NameStr n) value conf st = (Ok tt, st1) ->
  exists v save,
    to_native value = Ok v /\ c_save conf = Some save /\
    (wants_save save = true ->
     dict_get n (variables st1) = Some (Flat (flat_series n st ++ [v]))) /\
    snapshots n st1 =
    (snapshots n st +
     (if (wants_export save &&
          (negb (truthy (c_initial_only conf)) || Z.eqb (current_timestep m) 0))%bool
      then 1 else 0))%nat.
Proof.
  unfold report_value, bind, lift.
  destruct (to_native value) as [v|e]; [|discriminate].
  destruct (c_save conf) as [save|]; [|discriminate].
  destruct (negb _); [discriminate|].
  intros Hrun. exists v, save. split; [reflexivity|]. split; [reflexivity|].
  assert (Hexport : forall st0 st0',
            export_value (NameStr n) v conf st0 = (Ok tt, st0') ->
            variables st0' = variables st0 /\
            snapshots n st0' = (snapshots n st0 + 1)%nat).
  { intros st0 st0' Hex.
    destruct (export_value_effect n v conf st0) as (Hv & _ & Hw).
    rewrite Hex in Hv, Hw. simpl in Hv, Hw. split; [exact Hv|].
    destruct Hw as (w & Hw & Hs & Hn).
    rewrite (snapshots_write n w st0 st0' Hw), Hs, Hn, String.eqb_refl. reflexivity. }
  assert (Hsaved : forall st0 st0',
            (if wants_save save then append_value (NameStr n) v else ret tt) st0
            = (Ok tt, st0') ->
            snapshots n st0' = snapshots n st0 /\
            (wants_save save = true ->
             dict_get n (variables st0') = Some (Flat (flat_series n st0 ++ [v])))).
  { intros st0 st0' Hs. destruct (wants_save save).
    - split.
      + apply snapshots_same.
        pose proof (append_value_writes (NameStr n) v st0) as Hw.
        rewrite Hs in Hw. exact Hw.
      + intros _. apply append_value_str. exact Hs.
    - inversion Hs; subst. split; [reflexivity|discriminate]. }
  assert (Hflat : forall st0, variables st0 = variables st ->
                              flat_series n st0 = flat_series n st).
  { intros st0 Hv. unfold flat_series. rewrite Hv. reflexivity. }
  destruct (wants_export save); simpl.
  - destruct (truthy (c_initial_only conf)); simpl.
    + destruct (current_timestep m =? 0).
      * destruct (export_value (NameStr n) v conf st) as [[[]|e] st0] eqn:Hex;
          [|discriminate].
        destruct (Hexport _ _ Hex) as [Hv Hc].
        destruct (Hsaved _ _ Hrun) as [Hc' Hs].
        split; [intros Hw; rewrite (Hs Hw), (Hflat st0 Hv); reflexivity|lia].
      * unfold ret in Hrun at 1.
        destruct (Hsaved _ _ Hrun) as [Hc' Hs].
        split; [exact Hs|lia].
    + destruct (export_value (NameStr n) v conf st) as [[[]|e] st0] eqn:Hex;
        [|discriminate].
      destruct (Hexport _ _ Hex) as [Hv Hc].
      destruct (Hsaved _ _ Hrun) as [Hc' Hs].
      split; [intros Hw; rewrite (Hs Hw), (Hflat st0 Hv); reflexivity|lia].
  - unfold ret in Hrun at 1.
    destruct (Hsaved _ _ Hrun) as [Hc' Hs].
    split; [exact Hs|lia].
Qed.

(** *** [parse_agent_data], [extract_agent_data] and [step] *)

Lemma parse_agent_data_frame (k : string) (m : Model) (name : Name) (values : Value)
    (agents : AgentClass) (conf : Conf) (st : Reporter) :
  base name <> k -> same_for k st (snd (parse_agent_data m name values agents conf st)).
Proof.
  intros Hne. unfold parse_agent_data.
  apply bind_same_for; [intros; apply same_for_refl|].
  intros v st0. apply report_value_frame. exact Hne.
Qed.

Lemma extract_agent_data_frame (k : string) (m : Model) (n : string) (conf : Conf)
    (st : Reporter) :
  n <> k -> same_for k st (snd (extract_agent_data m n conf st)).
Proof.
  intros Hne. unfold extract_agent_data.
  destruct (c_type conf) as [type|]; [|apply same_for_refl].
  destruct (agents m) as [all_agents|]; [|apply same_for_refl].
  destruct (dict_get type all_agents) as [ag|]; [|apply same_for_refl].
  destruct (c_varname conf) as [varname|]; [|apply same_for_refl].
  destruct (dict_get varname (attrs ag)) as [values|]; [|apply same_for_refl].
  destruct (truthy (c_split conf)).
  - destruct (ids ag) as [agent_ids|]; [|apply same_for_refl].
    apply bind_same_for; [intros; apply same_for_refl|].
    intros admin st0.
    apply (for_each_preserves (same_for k)).
    + apply same_for_refl.
    + apply same_for_trans.
    + intros pair st1 _. apply parse_agent_data_frame. exact Hne.
  - apply parse_agent_data_frame. exact Hne.
Qed.

Lemma extract_agent_data_own (m : Model) (n : string) (conf : Conf)
    (st st1 : Reporter) :
  extract_agent_data m n conf st = (Ok tt, st1) ->
  truthy (c_split conf) = false ->
  exists v save,
    directive_value m conf = Some v /\ c_save conf = Some save /\
    (wants_save save = true ->
     dict_get n (variables st1) = Some (Flat (flat_series n st ++ [v]))) /\
    snapshots n st1 =
    (snapshots n st +
     (if (wants_export save &&
          (negb (truthy (c_initial_only conf)) || Z.eqb (current_timestep m) 0))%bool
      then 1 else 0))%nat.
Proof.
  unfold extract_agent_data, directive_value. intros Hrun Hsplit.
  destruct (c_type conf) as [type|]; [|discriminate].
  destruct (agents m) as [all_agents|]; [|discriminate].
  destruct (dict_get type all_agents) as [ag|]; [|discriminate].
  destruct (c_varname conf) as [varname|]; [|discriminate].
  destruct (dict_get varname (attrs ag)) as [values|]; [|discriminate].
  rewrite Hsplit in Hrun. unfold parse_agent_data, bind, lift in Hrun.
  destruct (apply_function values ag conf) as [raw|e]; [|discriminate].
  destruct (report_value_own m n raw conf st st1 Hrun) as (v & save & Hv & Hs & Hbuf & Hsnap).
  exists v, save. rewrite Hv. auto.
Qed.

Lemma step_unfold (m : Model) (st : Reporter) :
  step m st =
  for_each (directives m) (fun d => extract_agent_data m (fst d) (snd d))
    (push_timestep (current_time m) st).
Proof.
  unfold step, directives, bind, modify. simpl.
  destruct (config m) as [cfg|]; [|reflexivity].
  destruct (cfg_report cfg); reflexivity.
Qed.

(** One successful [step] seen from one non-split directive: exactly its
    own call of [extract_agent_data] touches its series and its
    snapshots. *)
Lemma step_own (m : Model) (name : string) (conf : Conf) (st st1 : Reporter) :
  step m st = (Ok tt, st1) ->
  has_directive m name conf ->
  truthy (c_split conf) = false ->
  exists v save,
    directive_value m conf = Some v /\ c_save conf = Some save /\
    (wants_save save = true ->
     dict_get name (variables st1) = Some (Flat (flat_series name st ++ [v]))) /\
    snapshots name st1 =
    (snapshots name st +
     (if (wants_export save &&
          (negb (truthy (c_initial_only conf)) || Z.eqb (current_timestep m) 0))%bool
      then 1 else 0))%nat.
Proof.
  rewrite step_unfold. intros Hrun [Hnodup Hin] Hsplit.
  destruct (in_split _ _ Hin) as (pre & post & Hds).
  rewrite Hds in Hrun, Hnodup.
  set (body := fun d : string * Conf => extract_agent_data m (fst d) (snd d)) in *.
  set (st0 := push_timestep (current_time m) st) in *.
  assert (Hother : forall ds, ~ In name (map fst ds) ->
                     forall s, same_for name s (snd (for_each ds body s))).
  { intros ds Hnot. apply for_each_preserves.
    - apply same_for_refl.
    - apply same_for_trans.
    - intros d s Hd. apply extract_agent_data_frame.
      intros Heq. apply Hnot. rewrite <- Heq. apply in_map. exact Hd. }
  rewrite map_app in Hnodup. simpl in Hnodup.
  apply NoDup_ListNoDup in Hnodup.
  pose proof (List.NoDup_remove_2 _ _ _ Hnodup) as Hnotin.
  assert (Hpre : ~ In name (map fst pre)) by (intros H; apply Hnotin, in_or_app; auto).
  assert (Hpost : ~ In name (map fst post)) by (intros H; apply Hnotin, in_or_app; auto).
  rewrite for_each_app in Hrun.
  pose proof (Hother pre Hpre st0) as Fpre.
  destruct (for_each pre body st0) as [[[]|e] sa]; [|discriminate].
  simpl in Hrun, Fpre. unfold bind in Hrun.
  destruct (body (name, conf) sa) as [[[]|e] sb] eqn:Hown; [|discriminate].
  pose proof (Hother post Hpost sb) as Fpost. rewrite Hrun in Fpost. simpl in Fpost.
  unfold body in Hown. simpl in Hown.
  destruct (extract_agent_data_own m name conf sa sb Hown Hsplit)
    as (v & save & Hv & Hs & Hbuf & Hsnap).
  exists v, save. split; [exact Hv|]. split; [exact Hs|].
  destruct Fpre as [Fpre1 Fpre2]. destruct Fpost as [Fpost1 Fpost2].
  assert (Hser : flat_series name sa = flat_series name st).
  { unfold flat_series. rewrite Fpre1. reflexivity. }
  assert (Hst0 : snapshots name st0 = snapshots name st) by reflexivity.
  split.
  - intros Hw. rewrite Fpost1, (Hbuf Hw), Hser. reflexivity.
  - rewrite Fpost2, Hsnap, Fpre2, Hst0. reflexivity.
Qed.

(** *** Runs of [step] *)

Lemma run_cons (m : Model) (ms : list Model) (st : Reporter) :
  run (m :: ms) st =
  match step m st with
  | (Ok _, st1) => run ms st1
  | (Raise e, st1) => (Raise e, st1)
  end.
Proof. unfold run. simpl. unfold bind. destruct (step m st) as [[[]|e] st1]; reflexivity. Qed.

Lemma run_series (ms : list Model) (name : string) (conf : Conf) (save : string) :
  forall st st' : Reporter,
    run ms st = (Ok tt, st') ->
    Forall (fun m => has_directive m name conf) ms ->
    truthy (c_split conf) = false ->
    c_save conf = Some save ->
    wants_save save = true ->
    exists vs,
      Forall2 (fun m v => directive_value m conf = Some v) ms vs /\
      flat_series name st' = flat_series name st ++ vs /\
      (ms <> [] ->
       dict_get name (variables st') = Some (Flat (flat_series name st ++ vs))).
Proof.
  induction ms as [|m ms IH]; intros st st' Hrun Hall Hsplit Hsave Hw.
  - inversion Hrun; subst. exists []. rewrite app_nil_r.
    split; [constructor|]. split; [reflexivity|]. intros H; contradiction.
  - rewrite run_cons in Hrun.
    destruct (step m st) as [[[]|e] st1] eqn:Hstep; [|discriminate].
    inversion Hall as [|? ? Hm Hms]; subst.
    destruct (step_own m name conf st st1 Hstep Hm Hsplit)
      as (v & save' & Hv & Hs' & Hbuf & _).
    assert (save' = save) by congruence. subst save'.
    specialize (Hbuf Hw).
    assert (Hser : flat_series name st1 = flat_series name st ++ [v]).
    { unfold flat_series at 1. rewrite Hbuf. reflexivity. }
    destruct (IH st1 st' Hrun Hms Hsplit Hsave Hw) as (vs & Hvs & Hflat & Hget).
    exists (v :: vs). rewrite Hser, <- app_assoc in Hflat, Hget. simpl in Hflat, Hget.
    split; [constructor; assumption|]. split; [exact Hflat|].
    intros _. destruct ms as [|m' ms'].
    + inversion Hvs; subst. inversion Hrun; subst. exact Hbuf.
    + apply Hget. discriminate.
Qed.

(** C7: for a non-split directive whose save policy includes save, after
    k successful calls of step on a fresh reporter its series holds
    exactly k values, the values of the calls in call order, whatever
    initial_only says. *)
Theorem series_length_counts_steps (ms : list Model) (name : string) (conf : Conf)
    (save : string) (st st' : Reporter) :
  dict_get name (variables st) = None ->
  run ms st = (Ok tt, st') ->
  Forall (fun m => has_directive m name conf) ms ->
  truthy (c_split conf) = false ->
  c_save conf = Some save ->
  wants_save save = true ->
  exists vs,
    length vs = length ms /\
    Forall2 (fun m v => directive_value m conf = Some v) ms vs /\
    flat_series name st' = vs /\
    (ms <> [] -> dict_get name (variables st') = Some (Flat vs)).
Proof.
  intros Hfresh Hrun Hall Hsplit Hsave Hw.
  destruct (run_series ms name conf save st st' Hrun Hall Hsplit Hsave Hw)
    as (vs & Hvs & Hflat & Hget).
  assert (Hempty : flat_series name st = []).
  { unfold flat_series. rewrite Hfresh. reflexivity. }
  rewrite Hempty in Hflat, Hget. simpl in Hflat, Hget.
  exists vs. split; [|auto].
  symmetry. eapply Forall2_length. exact Hvs.
Qed.

(** C8 (amended): for a non-split directive with initial_only set and a
    save policy that includes export, a run of successful calls of step
    writes one snapshot at each call made while the model's
    current_timestep is 0 and none at any other call. *)
Theorem initial_only_exports_at_timestep_zero (ms : list Model) (name : string)
    (conf : Conf) (save : string) :
  forall st st' : Reporter,
    run ms st = (Ok tt, st') ->
    Forall (fun m => has_directive m name conf) ms ->
    truthy (c_split conf) = false ->
    truthy (c_initial_only conf) = true ->
    c_save conf = Some save ->
    wants_export save = true ->
    snapshots name st' = (snapshots name st + calls_at_timestep_zero ms)%nat.
Proof.
  induction ms as [|m ms IH]; intros st st' Hrun Hall Hsplit Hinit Hsave Hexp.
  - inversion Hrun; subst. unfold calls_at_timestep_zero. simpl. lia.
  - rewrite run_cons in Hrun.
    destruct (step m st) as [[[]|e] st1] eqn:Hstep; [|discriminate].
    inversion Hall as [|? ? Hm Hms]; subst.
    destruct (step_own m name conf st st1 Hstep Hm Hsplit)
      as (v & save' & _ & Hs' & _ & Hsnap).
    assert (save' = save) by congruence. subst save'.
    rewrite Hexp, Hinit in Hsnap. simpl in Hsnap.
    rewrite (IH st1 st' Hrun Hms Hsplit Hinit Hsave Hexp), Hsnap.
    unfold calls_at_timestep_zero. simpl.
    destruct (current_timestep m =? 0); simpl; lia.
Qed.

(** *** Validation at the head of [report_value] *)

Lemma check_value_accepted (s : Scalar) :
  check_value s = Ok tt <-> accepted s = true.
Proof.
  destruct s; simpl; try (split; [reflexivity|reflexivity]);
    try (split; discriminate).
  destruct (is_infinity f); simpl; split; (reflexivity || discriminate).
Qed.

Lemma check_value_rejected (s : Scalar) :
  accepted s = false ->
  exists e, check_value s = Raise e /\
            (e = AssertionError \/ exists msg, e = ValueError msg).
Proof.
  destruct s; simpl; try discriminate.
  - destruct (is_infinity f); [|discriminate]. intros _. eauto.
  - intros _. eauto.
  - intros _. eauto.
Qed.










(** *** Missing [format] *)


Lemma export_value_missing_format (n : string) (value : Value) (conf : Conf)
    (st : Reporter) :
  c_format conf = None ->
  export_value (NameStr n) value conf st =
  (Raise (ValueError ("Export format must be specified for " +:+ n +:+
                      " in config file (npy/csv/xlsx).")),
   makedirs (path_join (export_folder st) n) st).
Proof. intros Hf. unfold export_value, bind, get, modify, raise. rewrite Hf. reflexivity. Qed.



(** C10 (amended): under a string name export_value creates the folder
    of the name before it looks at the format field: on a disk that lets
    it, the folder exists after every such call, and a call that fails
    for the missing field leaves the reporter exactly as it was but for
    the folder, which it adds when absent. *)
Theorem export_value_creates_folder_first (n : string) (value : Value) (conf : Conf)
    (st : Reporter) :
  In (path_join (export_folder st) n)
     (disk_dirs (snd (export_value (NameStr n) value conf st))) /\
  (c_format conf = None ->
   export_value (NameStr n) value conf st =
   (Raise (ValueError ("Export format must be specified for " +:+ n +:+
                       " in config file (npy/csv/xlsx).")),
    makedirs (path_join (export_folder st) n) st) /\
   (~ In (path_join (export_folder st) n) (disk_dirs st) ->
    disk_dirs (makedirs (path_join (export_folder st) n) st) =
    disk_dirs st ++ [path_join (export_folder st) n])).
Proof.
  split.
  - assert (Hmk : In (path_join (export_folder st) n)
                     (disk_dirs (makedirs (path_join (export_folder st) n) st))).
    { unfold makedirs. simpl.
      destruct (decide (path_join (export_folder st) n ∈ disk_dirs st)) as [Hin|Hout].
      - apply list_elem_of_In. exact Hin.
      - apply in_or_app. right. left. reflexivity. }
    unfold export_value, bind, get, modify, lift, raise, ret. simpl.
    destruct (c_format conf) as [format|]; simpl; [|exact Hmk].
    destruct (snapshot_filename conf st) as [fn|e]; simpl; [|exact Hmk].
    destruct (String.eqb format "npy"); simpl;
      [destruct (np_save_error value); exact Hmk|].
    destruct (String.eqb format "csv"); simpl; [|exact Hmk].
    destruct (csv_items value) as [lines|e]; simpl; [|exact Hmk].
    destruct (100000 <? Z.of_nat (length lines)); simpl; exact Hmk.
  - intros Hf. split; [apply export_value_missing_format; exact Hf|].
    intros Hout. unfold makedirs. simpl.
    destruct (decide (path_join (export_folder st) n ∈ disk_dirs st)) as [Hin|_];
      [|reflexivity].
    exfalso. apply Hout. apply list_elem_of_In. exact Hin.
Qed.

(** *** What [report] returns *)

Lemma report_returns_nothing (m : Model) (st st' : Reporter)
    (d : list (string * DataFrame)) :
  report m st = (Ok d, st') -> d = [].
Proof.
  unfold report, bind, get, ret.
  destruct (for_each (variables st) _ st) as [[[]|e] st1]; intros H; inversion H.
  reflexivity.
Qed.

End ReporterFacts.

(** ** The claims on the example world *)

Import Demo.

Lemma outcome_with_state {A S} (p : A * S) (a : A) : fst p = a -> p = (a, snd p).
Proof. intros <-. destruct p; reflexivity. Qed.

Lemma table_names_unique : NoDup (map fst table).
Proof. apply NoDup_ListNoDup. repeat constructor; simpl; intuition discriminate. Qed.

Lemma day_has (n : Z) (name : string) (conf : Conf) :
  In (name, conf) table -> has_directive (day n) name conf.
Proof. intros H. split; [exact table_names_unique|exact H]. Qed.

(** C7 on two steps of the example model. *)
Lemma series_length_counts_steps_witness :
  exists vs,
    length vs = 2%nat /\
    flat_series "total" (snd (run [day 0; day 1] blank)) = vs.
Proof.
  destruct (series_length_counts_steps [day 0; day 1] "total" total "save"
              blank (snd (run [day 0; day 1] blank)))
    as (vs & Hlen & _ & Hflat & _).
  - reflexivity.
  - apply outcome_with_state. reflexivity.
  - repeat (constructor; [apply day_has; simpl; auto|]). constructor.
  - reflexivity.
  - reflexivity.
  - reflexivity.
  - exists vs. split; [exact Hlen|exact Hflat].
Defined.

(** C8 on three steps of the example model, the first at timestep 0. *)
Lemma initial_only_exports_at_timestep_zero_witness :
  snapshots "first_wealth" (snd (run [day 0; day 1; day 2] blank)) = 1%nat.
Proof.
  rewrite (initial_only_exports_at_timestep_zero [day 0; day 1; day 2]
             "first_wealth" first_wealth "export"
             blank (snd (run [day 0; day 1; day 2] blank))).
  - reflexivity.
  - apply outcome_with_state. reflexivity.
  - repeat (constructor; [apply day_has; simpl; auto|]). constructor.
  - reflexivity.
  - reflexivity.
  - reflexivity.
  - reflexivity.
Defined.

(** C8, counterexample: the reporter is constructed (its first step) and
    stepped once more while the model's current_timestep is still 0: the
    initial_only directive is exported twice; constructed at timestep 3
    it is never exported. *)
Lemma initial_only_exported_twice_or_never :
  (let constructed := init (day 0) None ["report"] in
   let stepped := step (day 0) (snd constructed) in
   fst constructed = Ok tt /\ fst stepped = Ok tt /\
   snapshots "first_wealth" (snd constructed) = 1%nat /\
   snapshots "first_wealth" (snd stepped) = 2%nat) /\
  (let constructed := init (day 3) None ["report"] in
   let stepped := run [day 4; day 5] (snd constructed) in
   fst constructed = Ok tt /\ fst stepped = Ok tt /\
   snapshots "first_wealth" (snd stepped) = 0%nat).
Proof. cbv zeta. repeat split; reflexivity. Qed.





(** C10, counterexample: under the tuple name of a split directive
    export_value raises before os.makedirs: no folder is created. *)
Lemma tuple_name_creates_no_folder :
  export_value (@NameTuple world "by_farmer" 10) (Py (PyInt 1)) wealth_export blank =
  (Raise (TypeError "join() argument must be str, bytes, or os.PathLike object, not 'tuple'"),
   blank) /\
  disk_dirs blank = ["report"].
Proof. split; reflexivity. Qed.

Lemma snapshot_filename_frequency `{C : Collaborators} (conf : Conf) (st : Reporter)
    (t : Time) :
  last (timesteps st) = Some t ->
  snapshot_filename conf st =
  Ok (if match c_frequency conf with
         | Some frequency => String.eqb frequency "initial_only"
         | None => false
         end
      then "initial"
      else remove_char ":" (remove_char "-" (isoformat t))).
Proof.
  intros Hlast. unfold snapshot_filename. rewrite Hlast.
  destruct (match c_frequency conf with Some _ => _ | None => _ end); reflexivity.
Qed.

(** C4, the code at the failing input: a directive with initial_only set
    (and export, npy) is exported by the constructor's step under the
    timestamp of the step, not under 'initial'. *)
Theorem initial_only_snapshot_is_named_by_time :
  let constructed := init (day 0) None ["report"] in
  c_initial_only first_wealth = Some true /\
  fst constructed = Ok tt /\
  map w_path (disk_writes (snd constructed)) = ["report/first_wealth/20200101T000000.npy"].
Proof. cbv zeta. repeat split; reflexivity. Qed.

(** C1, the code at the failing input: after the constructor's step the
    store holds the series of 'total'; report builds its frame and writes
    it, and returns the empty dict, as it does whenever it returns. *)
Theorem report_returns_empty_dict :
  (let st := snd (init (model [("total", directive (FStr "sum") "save" (Some "csv") None)]
                         "2020-01-01T00:00:00" 0) None ["report"]) in
   let reported := report (model [("total", directive (FStr "sum") "save" (Some "csv") None)]
                             "2020-01-01T00:00:00" 0) st in
   variables st = [("total", Flat [Py (PyInt 10)])] /\
   fst reported = Ok [] /\
   map w_content (disk_writes (snd reported)) =
   [@FrameCsv world {| frame_index := ["2020-01-01T00:00:00"];
                       frame_columns := [("total", [Py (PyInt 10)])] |}]) /\
  (forall (C : Collaborators) (m : Model) (st st' : Reporter)
          (d : list (string * DataFrame)),
     report m st = (Ok d, st') -> d = []).
Proof.
  split.
  - cbv zeta. repeat split; reflexivity.
  - intros C m st st' d. apply report_returns_nothing.
Qed.

(** ** Further properties of the reporter *)

Section DictKeys.

Context {K V : Type} `{EqDecision K}.

Lemma dict_set_keys_present (k : K) (v x : V) (d : list (K * V)) :
  dict_get k d = Some x -> map fst (dict_set k v d) = map fst d.
Proof.
  induction d as [|[k' v'] d IH]; simpl; [discriminate|].
  destruct (decide (k = k')) as [->|Hne]; simpl; [reflexivity|].
  intros Hget. rewrite (IH Hget). reflexivity.
Qed.

Lemma dict_set_keys_absent (k : K) (v : V) (d : list (K * V)) :
  dict_get k d = None -> map fst (dict_set k v d) = map fst d ++ [k].
Proof.
  induction d as [|[k' v'] d IH]; simpl; [reflexivity|].
  destruct (decide (k = k')) as [->|Hne]; simpl; [discriminate|].
  intros Hget. rewrite (IH Hget). reflexivity.
Qed.

End DictKeys.

Section Growth.

Context `{C : Collaborators}.

Lemma series_extends_refl (s : Series) : series_extends s s.
Proof.
  destruct s as [l|d]; simpl.
  - lia.
  - intros id l Hl. exists []. rewrite app_nil_r. exact Hl.
Qed.

Lemma series_extends_trans (s1 s2 s3 : Series) :
  series_extends s1 s2 -> series_extends s2 s3 -> series_extends s1 s3.
Proof.
  destruct s1 as [l1|d1], s2 as [l2|d2], s3 as [l3|d3]; simpl; try contradiction.
  - lia.
  - intros H12 H23 id l Hl. destruct (H12 id l Hl) as [m1 H2].
    destruct (H23 id _ H2) as [m2 H3]. exists (m1 ++ m2).
    rewrite app_assoc. exact H3.
Qed.

Lemma grows_refl (st : Reporter) : grows st st.
Proof.
  unfold grows. repeat split; try (exists []; rewrite app_nil_r; reflexivity).
  intros name s Hs. exists s. split; [exact Hs|apply series_extends_refl].
Qed.

Lemma grows_trans (st1 st2 st3 : Reporter) :
  grows st1 st2 -> grows st2 st3 -> grows st1 st3.
Proof.
  intros (T1 & F1 & [d1 D1] & [w1 W1] & [n1 N1] & [k1 K1] & V1)
         (T2 & F2 & [d2 D2] & [w2 W2] & [n2 N2] & [k2 K2] & V2).
  unfold grows. split; [congruence|]. split; [congruence|].
  split; [exists (d1 ++ d2); rewrite D2, D1, app_assoc; reflexivity|].
  split; [exists (w1 ++ w2); rewrite W2, W1, app_assoc; reflexivity|].
  split; [exists (n1 ++ n2); rewrite N2, N1, app_assoc; reflexivity|].
  split; [exists (k1 ++ k2); rewrite K2, K1, app_assoc; reflexivity|].
  intros name s Hs. destruct (V1 name s Hs) as (s2 & Hs2 & E12).
  destruct (V2 name s2 Hs2) as (s3 & Hs3 & E23).
  exists s3. split; [exact Hs3|]. eapply series_extends_trans; eassumption.
Qed.

Lemma bind_rel {A B} (R : Reporter -> Reporter -> Prop) (c : M A) (f : A -> M B)
    (st : Reporter) :
  (forall a b c, R a b -> R b c -> R a c) ->
  (forall st0, R st0 (snd (c st0))) ->
  (forall a st0, R st0 (snd (f a st0))) ->
  R st (snd (bind c f st)).
Proof.
  intros Htrans Hc Hf. unfold bind. specialize (Hc st).
  destruct (c st) as [[a|e] st1]; simpl in *; [|exact Hc].
  eapply Htrans; [exact Hc|apply Hf].
Qed.

Lemma grows_makedirs (folder : string) (st : Reporter) : grows st (makedirs folder st).
Proof.
  unfold grows, makedirs; simpl. split; [reflexivity|]. split; [reflexivity|].
  split.
  { destruct (decide (folder ∈ disk_dirs st)).
    - exists []. rewrite app_nil_r. reflexivity.
    - eexists. reflexivity. }
  repeat split; try (exists []; rewrite app_nil_r; reflexivity).
  intros name s Hs. exists s. split; [exact Hs|apply series_extends_refl].
Qed.

Lemma grows_write_file (w : Write) (st : Reporter) : grows st (write_file w st).
Proof.
  unfold grows, write_file; simpl. split; [reflexivity|]. split; [reflexivity|].
  split; [exists []; rewrite app_nil_r; reflexivity|].
  split; [eexists; reflexivity|].
  repeat split; try (exists []; rewrite app_nil_r; reflexivity).
  intros name s Hs. exists s. split; [exact Hs|apply series_extends_refl].
Qed.

Lemma grows_log_info (n : nat) (st : Reporter) : grows st (log_info n st).
Proof.
  unfold grows, log_info; simpl. split; [reflexivity|]. split; [reflexivity|].
  split; [exists []; rewrite app_nil_r; reflexivity|].
  split; [exists []; rewrite app_nil_r; reflexivity|].
  split; [eexists; reflexivity|].
  split; [exists []; rewrite app_nil_r; reflexivity|].
  intros name s Hs. exists s. split; [exact Hs|apply series_extends_refl].
Qed.

(** Storing a series under [n] that continues what was there. *)
Lemma grows_store (n : string) (s_new : Series) (st : Reporter) :
  (forall s, dict_get n (variables st) = Some s -> series_extends s s_new) ->
  grows st (set_variables (dict_set n s_new (variables st)) st).
Proof.
  intros Hext. unfold grows, set_variables; simpl.
  split; [reflexivity|]. split; [reflexivity|].
  split; [exists []; rewrite app_nil_r; reflexivity|].
  split; [exists []; rewrite app_nil_r; reflexivity|].
  split; [exists []; rewrite app_nil_r; reflexivity|].
  split.
  { destruct (dict_get n (variables st)) as [x|] eqn:Hget.
    - exists []. rewrite app_nil_r. eapply dict_set_keys_present. exact Hget.
    - eexists. apply dict_set_keys_absent. exact Hget. }
  intros name s Hs. destruct (decide (name = n)) as [->|Hne].
  - exists s_new. split; [apply dict_get_set_eq|apply Hext; exact Hs].
  - exists s. split; [rewrite dict_get_set_ne by exact Hne; exact Hs|].
    apply series_extends_refl.
Qed.

Lemma export_value_grows (name : Name) (value : Value) (conf : Conf) (st : Reporter) :
  grows st (snd (export_value name value conf st)).
Proof.
  destruct name as [n|n id]; [|apply grows_refl].
  unfold export_value, bind, get, modify, lift, raise, ret. simpl.
  pose proof (grows_makedirs (path_join (export_folder st) n) st) as Hmk.
  destruct (c_format conf) as [format|]; simpl; [|exact Hmk].
  destruct (snapshot_filename conf st) as [fn|e]; simpl; [|exact Hmk].
  destruct (String.eqb format "npy"); simpl.
  { destruct (np_save_error value); simpl;
      (eapply grows_trans; [exact Hmk|apply grows_write_file]). }
  destruct (String.eqb format "csv"); simpl; [|exact Hmk].
  destruct (csv_items value) as [lines|e]; simpl; [|exact Hmk].
  destruct (100000 <? Z.of_nat (length lines)); simpl.
  - eapply grows_trans; [exact Hmk|].
    eapply grows_trans; [apply grows_log_info|apply grows_write_file].
  - eapply grows_trans; [exact Hmk|apply grows_write_file].
Qed.

Lemma append_value_grows (name : Name) (value : Value) (st : Reporter) :
  grows st (snd (append_value name value st)).
Proof.
  unfold append_value, bind, get, modify, lift, raise. simpl.
  destruct name as [n|n id].
  - destruct (dict_get n (variables st)) as [[l|d]|] eqn:Hget; simpl.
    + apply grows_store. intros s Hs. rewrite Hget in Hs. inversion Hs; subst.
      simpl. rewrite length_app. lia.
    + apply grows_refl.
    + apply grows_store. intros s Hs. congruence.
  - destruct (dict_get n (variables st)) as [[l|d]|] eqn:Hget; simpl.
    + assert (Hput : forall k x,
                grows st (set_variables (dict_set n (Flat (<[k := x]> l)) (variables st)) st)).
      { intros k x. apply grows_store. intros s Hs. rewrite Hget in Hs.
        inversion Hs; subst. simpl. rewrite length_insert. lia. }
      destruct (ID_in_list id l) as [present|e]; simpl; [|apply grows_refl].
      destruct (ID_index id) as [i|]; simpl; [|apply grows_refl].
      destruct present; destruct (index (length l) i) as [k|]; simpl;
        try apply grows_refl; [|apply Hput].
      destruct (l !! k) as [[s|dtype a|x]|]; simpl; try apply grows_refl. apply Hput.
    + destruct (ID_hashable id); simpl; [|apply grows_refl].
      apply grows_store. intros s Hs. rewrite Hget in Hs. inversion Hs; subst.
      simpl. intros id' l' Hl'. destruct (decide (id' = id)) as [->|Hne].
      * rewrite Hl'. exists [value]. apply dict_get_set_eq.
      * exists []. rewrite app_nil_r, dict_get_set_ne by exact Hne. exact Hl'.
    + destruct (ID_hashable id); simpl; apply grows_store; intros s Hs; congruence.
Qed.

Lemma report_value_grows (m : Model) (name : Name) (value : Value) (conf : Conf)
    (st : Reporter) :
  grows st (snd (report_value m name value conf st)).
Proof.
  unfold report_value.
  apply bind_rel; [apply grows_trans|intros; apply grows_refl|]. clear st. intros v st.
  destruct (c_save conf) as [save|]; [|apply grows_refl].
  destruct (negb _); [apply grows_refl|].
  apply bind_rel; [apply grows_trans| |]; clear st.
  - intros st. destruct (wants_export save); [|apply grows_refl].
    destruct (truthy (c_initial_only conf)).
    + destruct (current_timestep m =? 0); [|apply grows_refl]. apply export_value_grows.
    + apply export_value_grows.
  - intros _ st. destruct (wants_save save); [|apply grows_refl].
    apply append_value_grows.
Qed.

Lemma parse_agent_data_grows (m : Model) (name : Name) (values : Value)
    (agents : AgentClass) (conf : Conf) (st : Reporter) :
  grows st (snd (parse_agent_data m name values agents conf st)).
Proof.
  unfold parse_agent_data.
  apply bind_rel; [apply grows_trans|intros; apply grows_refl|].
  intros v st0. apply report_value_grows.
Qed.

Lemma extract_agent_data_grows (m : Model) (n : string) (conf : Conf) (st : Reporter) :
  grows st (snd (extract_agent_data m n conf st)).
Proof.
  unfold extract_agent_data.
  destruct (c_type conf) as [type|]; [|apply grows_refl].
  destruct (agents m) as [all_agents|]; [|apply grows_refl].
  destruct (dict_get type all_agents) as [ag|]; [|apply grows_refl].
  destruct (c_varname conf) as [varname|]; [|apply grows_refl].
  destruct (dict_get varname (attrs ag)) as [values|]; [|apply grows_refl].
  destruct (truthy (c_split conf)).
  - destruct (ids ag) as [agent_ids|]; [|apply grows_refl].
    apply bind_rel; [apply grows_trans|intros; apply grows_refl|].
    intros admin st0. apply (for_each_preserves grows).
    + apply grows_refl.
    + apply grows_trans.
    + intros pair st1 _. apply parse_agent_data_grows.
  - apply parse_agent_data_grows.
Qed.

Lemma step_grows (m : Model) (st : Reporter) :
  grows (push_timestep (current_time m) st) (snd (step m st)).
Proof.
  rewrite step_unfold. apply (for_each_preserves grows).
  - apply grows_refl.
  - apply grows_trans.
  - intros d st0 _. apply extract_agent_data_grows.
Qed.

Lemma flat_extends_refl (name : string) (st : Reporter) : flat_extends name st st.
Proof. intros l Hl. exists []. rewrite app_nil_r. exact Hl. Qed.

Lemma flat_extends_trans (name : string) (st1 st2 st3 : Reporter) :
  flat_extends name st1 st2 -> flat_extends name st2 st3 -> flat_extends name st1 st3.
Proof.
  intros H12 H23 l Hl. destruct (H12 l Hl) as [m1 H2].
  destruct (H23 _ H2) as [m2 H3]. exists (m1 ++ m2). rewrite app_assoc. exact H3.
Qed.

Lemma flat_extends_same (name : string) (st st' : Reporter) :
  dict_get name (variables st') = dict_get name (variables st) ->
  flat_extends name st st'.
Proof. intros Heq l Hl. exists []. rewrite app_nil_r, Heq. exact Hl. Qed.

(** Under its own string name [report_value] only appends to the list. *)
Lemma report_value_flat_extends (m : Model) (n : string) (value : Value) (conf : Conf)
    (st : Reporter) :
  flat_extends n st (snd (report_value m (NameStr n) value conf st)).
Proof.
  unfold report_value.
  apply bind_rel; [apply flat_extends_trans|intros; apply flat_extends_refl|].
  clear st. intros v st.
  destruct (c_save conf) as [save|]; [|apply flat_extends_refl].
  destruct (negb _); [apply flat_extends_refl|].
  assert (Hexport : forall st0, flat_extends n st0 (snd (export_value (NameStr n) v conf st0))).
  { intros st0. apply flat_extends_same.
    destruct (export_value_effect n v conf st0) as [Hv _]. rewrite Hv. reflexivity. }
  apply bind_rel; [apply flat_extends_trans| |]; clear st.
  - intros st. destruct (wants_export save); [|apply flat_extends_refl].
    destruct (truthy (c_initial_only conf)).
    + destruct (current_timestep m =? 0); [|apply flat_extends_refl]. apply Hexport.
    + apply Hexport.
  - intros _ st. destruct (wants_save save); [|apply flat_extends_refl].
    unfold append_value, bind, get, modify, raise. simpl.
    destruct (dict_get n (variables st)) as [[l|d]|] eqn:Hget; simpl.
    + intros l' Hl'. rewrite Hget in Hl'. inversion Hl'; subst.
      exists [v]. simpl. apply dict_get_set_eq.
    + apply flat_extends_refl.
    + intros l' Hl'. congruence.
Qed.

(** A step in which [name] is not reported by a split directive only
    appends to the list of [name]. *)
Lemma step_flat_extends (m : Model) (name : string) (st : Reporter) :
  (forall conf, In (name, conf) (directives m) -> truthy (c_split conf) = false) ->
  flat_extends name st (snd (step m st)).
Proof.
  intros Hsplit. rewrite step_unfold.
  apply (flat_extends_trans name st (push_timestep (current_time m) st));
    [apply flat_extends_same; reflexivity|].
  apply (for_each_preserves (flat_extends name)).
  - apply flat_extends_refl.
  - apply flat_extends_trans.
  - intros [n conf] st0 Hin. simpl.
    destruct (decide (n = name)) as [->|Hne].
    + specialize (Hsplit conf Hin). unfold extract_agent_data.
      destruct (c_type conf) as [type|]; [|apply flat_extends_refl].
      destruct (agents m) as [all_agents|]; [|apply flat_extends_refl].
      destruct (dict_get type all_agents) as [ag|]; [|apply flat_extends_refl].
      destruct (c_varname conf) as [varname|]; [|apply flat_extends_refl].
      destruct (dict_get varname (attrs ag)) as [values|]; [|apply flat_extends_refl].
      rewrite Hsplit. unfold parse_agent_data.
      apply bind_rel; [apply flat_extends_trans|intros; apply flat_extends_refl|].
      intros v st1. apply report_value_flat_extends.
    + apply flat_extends_same.
      apply (extract_agent_data_frame name m n conf st0 Hne).
Qed.

End Growth.

Section StepProperties.

Context `{C : Collaborators}.

(** X1: every call of step, whether it returns or raises, appends the
    model's current time to the reporter's timesteps, exactly once and at
    the end, and leaves the export folder name as it was. *)
Theorem step_records_time_whatever_happens (m : Model) (st : Reporter) :
  timesteps (snd (step m st)) = timesteps st ++ [current_time m] /\
  export_folder (snd (step m st)) = export_folder st.
Proof.
  destruct (step_grows m st) as (Ht & Hf & _). split; [exact Ht|exact Hf].
Qed.

(** X2: step never takes anything away, also when it raises: every name
    of the store stays, in its place, with a series of the kind it had;
    a per-id dict keeps every entity's list with values added at its
    end, a list does not get shorter, and the list of a name that no
    split directive of the table reports under is the old one with
    values added at its end; folders and written files are only added. *)
Theorem step_is_append_only (m : Model) (st : Reporter) :
  (forall name s,
     dict_get name (variables st) = Some s ->
     exists s', dict_get name (variables (snd (step m st))) = Some s' /\
                series_extends s s') /\
  (forall name,
     (forall conf, In (name, conf) (directives m) -> truthy (c_split conf) = false) ->
     forall l, dict_get name (variables st) = Some (Flat l) ->
               exists more,
                 dict_get name (variables (snd (step m st))) = Some (Flat (l ++ more))) /\
  (exists names, map fst (variables (snd (step m st))) = map fst (variables st) ++ names) /\
  (exists ds, disk_dirs (snd (step m st)) = disk_dirs st ++ ds) /\
  (exists ws, disk_writes (snd (step m st)) = disk_writes st ++ ws).
Proof.
  destruct (step_grows m st) as (_ & _ & Hd & Hw & _ & Hk & Hv).
  split; [exact Hv|].
  split; [intros name Hsplit; exact (step_flat_extends m name st Hsplit)|].
  split; [exact Hk|]. split; [exact Hd|exact Hw].
Qed.

Lemma run_timesteps (ms : list Model) :
  forall st : Reporter,
    exists done,
      timesteps (snd (run ms st)) = timesteps st ++ map current_time done /\
      (length done <= length ms)%nat /\
      (is_ok (fst (run ms st)) = true -> done = ms).
Proof.
  induction ms as [|m ms IH]; intros st.
  - exists []. simpl. rewrite app_nil_r. auto.
  - rewrite run_cons.
    destruct (step_grows m st) as (Ht & _).
    destruct (step m st) as [[[]|e] st1] eqn:Hstep; simpl in Ht.
    + destruct (IH st1) as (done & Hd & Hlen & Hok).
      exists (m :: done). rewrite Hd, Ht, <- app_assoc. simpl.
      split; [reflexivity|]. split; [lia|].
      intros H. rewrite (Hok H). reflexivity.
    + exists [m]. simpl. split; [exact Ht|]. split; [lia|discriminate].
Qed.

(** X3: after k successful calls of step on a reporter that is fresh for
    a non-split directive saving its value (no time recorded, no series
    of that name), the recorded times are the k current times of the
    calls in call order and the series of the directive has one value per
    recorded time. *)
Theorem series_is_aligned_with_timesteps (ms : list Model) (name : string)
    (conf : Conf) (save : string) (st st' : Reporter) :
  timesteps st = [] ->
  dict_get name (variables st) = None ->
  run ms st = (Ok tt, st') ->
  Forall (fun m => has_directive m name conf) ms ->
  truthy (c_split conf) = false ->
  c_save conf = Some save ->
  wants_save save = true ->
  timesteps st' = map current_time ms /\
  length (flat_series name st') = length (timesteps st') /\
  Forall2 (fun m v => directive_value m conf = Some v) ms (flat_series name st').
Proof.
  intros Ht Hfresh Hrun Hall Hsplit Hsave Hw.
  destruct (run_timesteps ms st) as (done & Hd & _ & Hok).
  rewrite Hrun in Hd, Hok. simpl in Hd, Hok. rewrite (Hok eq_refl), Ht in Hd.
  simpl in Hd.
  destruct (run_series ms name conf save st st' Hrun Hall Hsplit Hsave Hw)
    as (vs & Hvs & Hflat & _).
  assert (Hempty : flat_series name st = []).
  { unfold flat_series. rewrite Hfresh. reflexivity. }
  rewrite Hempty in Hflat. simpl in Hflat. rewrite Hflat, Hd.
  split; [reflexivity|]. split; [|exact Hvs].
  rewrite length_map. symmetry. eapply Forall2_length. exact Hvs.
Qed.

End StepProperties.

Section ReportValueProperties.

Context `{C : Collaborators}.

Lemma export_value_variables (name : Name) (value : Value) (conf : Conf)
    (st : Reporter) :
  variables (snd (export_value name value conf st)) = variables st.
Proof.
  destruct name as [n|n id]; [|reflexivity].
  destruct (export_value_effect n value conf st) as [Hv _]. exact Hv.
Qed.

(** The buffering block that raises has changed nothing, except for
    the empty dict it stores for a new name before an id that cannot be
    hashed stops it. *)
Lemma append_value_raise (name : Name) (value : Value) (st st' : Reporter) (e : Exc) :
  append_value name value st = (Raise e, st') ->
  st' = st \/
  exists n id,
    name = NameTuple n id /\ ID_hashable id = false /\
    dict_get n (variables st) = None /\
    st' = set_variables (dict_set n (PerID []) (variables st)) st.
Proof.
  unfold append_value, bind, get, modify, lift, raise. simpl.
  destruct name as [n|n id].
  - destruct (dict_get n (variables st)) as [[l|d]|];
      intros H; inversion H; left; reflexivity.
  - destruct (dict_get n (variables st)) as [[l|d]|] eqn:Hget.
    + destruct (ID_in_list id l) as [present|e0]; simpl;
        [|intros H; inversion H; left; reflexivity].
      destruct (ID_index id) as [i|]; [|intros H; inversion H; left; reflexivity].
      destruct present; destruct (index (length l) i) as [k|];
        try (intros H; inversion H; left; reflexivity).
      destruct (l !! k) as [[s|dtype a|x]|]; intros H; inversion H; left; reflexivity.
    + destruct (ID_hashable id); intros H; inversion H; left; reflexivity.
    + destruct (ID_hashable id) eqn:Hh; simpl; intros H; inversion H.
      right. exists n, id. auto.
Qed.

Lemma append_value_disk (name : Name) (value : Value) (st : Reporter) :
  disk_dirs (snd (append_value name value st)) = disk_dirs st /\
  disk_writes (snd (append_value name value st)) = disk_writes st /\
  logger_info (snd (append_value name value st)) = logger_info st.
Proof.
  destruct (append_value_effect name value st) as (_ & _ & Hd & Hw & Hl & _). auto.
Qed.

(** The two halves of [report_value] after the head and the policy test. *)
Lemma report_value_unfold (m : Model) (name : Name) (value v : Value) (conf : Conf)
    (save : string) (st : Reporter) :
  to_native value = Ok v ->
  c_save conf = Some save ->
  (wants_export save || wants_save save)%bool = true ->
  report_value m name value conf st =
  match (if export_due m conf save then export_value name v conf else ret tt) st with
  | (Ok _, st1) => (if wants_save save then append_value name v else ret tt) st1
  | (Raise e, st1) => (Raise e, st1)
  end.
Proof.
  intros Hv Hs Hpol. unfold report_value, bind, lift, export_due.
  rewrite Hv, Hs, (save_policy_valid save Hpol).
  destruct (wants_export save); simpl; [|reflexivity].
  destruct (truthy (c_initial_only conf)); simpl; [|reflexivity].
  destruct (current_timestep m =? 0); reflexivity.
Qed.

Lemma report_value_no_policy (m : Model) (name : Name) (value : Value) (conf : Conf)
    (st : Reporter) :
  (forall save, c_save conf = Some save ->
                (wants_export save || wants_save save)%bool = false) ->
  snd (report_value m name value conf st) = st.
Proof.
  intros Hpol. unfold report_value, bind, lift.
  destruct (to_native value) as [v|e]; [|reflexivity].
  destruct (c_save conf) as [save|]; [|reflexivity].
  specialize (Hpol save eq_refl).
  unfold wants_export, wants_save in Hpol.
  destruct (String.eqb save "save"), (String.eqb save "export"),
    (String.eqb save "save+export"); simpl in *; try discriminate; reflexivity.
Qed.

Lemma policy_cases (save : string) :
  (wants_export save || wants_save save)%bool = true \/
  (wants_export save = false /\ wants_save save = false).
Proof. destruct (wants_export save), (wants_save save); auto. Qed.

Lemma report_value_raise_variables (m : Model) (name : Name) (value : Value)
    (conf : Conf) (st st' : Reporter) (e : Exc) :
  report_value m name value conf st = (Raise e, st') ->
  (variables st' = variables st \/
   exists n id,
     name = NameTuple n id /\ ID_hashable id = false /\
     dict_get n (variables st) = None /\
     variables st' = dict_set n (PerID []) (variables st)) /\
  timesteps st' = timesteps st.
Proof.
  intros Hrun.
  assert (Ht : timesteps st' = timesteps st).
  { destruct (report_value_grows m name value conf st) as (Ht & _).
    rewrite Hrun in Ht. exact Ht. }
  split; [|exact Ht].
  destruct (to_native value) as [v|e0] eqn:Hv.
  2:{ unfold report_value, bind, lift in Hrun. rewrite Hv in Hrun.
      inversion Hrun. left. reflexivity. }
  destruct (c_save conf) as [save|] eqn:Hs.
  2:{ unfold report_value, bind, lift in Hrun. rewrite Hv, Hs in Hrun.
      inversion Hrun. left. reflexivity. }
  destruct (policy_cases save) as [Hpol|[Hne Hns]].
  - rewrite (report_value_unfold m name value v conf save st Hv Hs Hpol) in Hrun.
    assert (Hexp : variables (snd ((if export_due m conf save
                                    then export_value name v conf else ret tt) st))
                   = variables st).
    { destruct (export_due m conf save); [apply export_value_variables|reflexivity]. }
    destruct ((if export_due m conf save then export_value name v conf else ret tt) st)
      as [[[]|e1] st1]; simpl in Hexp.
    + destruct (wants_save save).
      * apply append_value_raise in Hrun.
        destruct Hrun as [->|(n & id & Hname & Hh & Hget & ->)]; [left; exact Hexp|].
        right. exists n, id. rewrite Hexp in Hget. simpl. rewrite Hexp. auto.
      * inversion Hrun.
    + inversion Hrun; subst. left. exact Hexp.
  - pose proof (report_value_no_policy m name value conf st) as Hsame.
    rewrite Hrun in Hsame. simpl in Hsame. left. rewrite Hsame; [reflexivity|].
    intros save' Hs'. assert (save' = save) by congruence. subst.
    rewrite Hne, Hns. reflexivity.
Qed.

(** X4: a call of report_value that raises has not touched the recorded
    times, and has not touched the store either, with one exception:
    under a tuple name whose id cannot be hashed, reported for a name
    that has no series yet, the empty dict stored for the name stays.
    Whatever else failed (the value check, the save policy, the export,
    the buffering), no series has changed, though the export folder or
    the snapshot file may already be on disk. *)
Theorem report_value_raise_keeps_store (m : Model) (name : Name) (value : Value)
    (conf : Conf) (st st' : Reporter) (e : Exc) :
  report_value m name value conf st = (Raise e, st') ->
  timesteps st' = timesteps st /\
  (variables st' = variables st \/
   exists n id,
     name = NameTuple n id /\ ID_hashable id = false /\
     dict_get n (variables st) = None /\
     variables st' = dict_set n (PerID []) (variables st)) /\
  ((forall n id, name = NameTuple n id -> ID_hashable id = true) ->
   variables st' = variables st).
Proof.
  intros Hrun.
  destruct (report_value_raise_variables m name value conf st st' e Hrun) as [Hv Ht].
  split; [exact Ht|]. split; [exact Hv|].
  intros Hhash. destruct Hv as [Hv|(n & id & Hname & Hh & _)]; [exact Hv|].
  rewrite (Hhash n id Hname) in Hh. discriminate.
Qed.

(** X5: the save policy separates the two effects of report_value: under
    a policy without export (save) the disk and the log are never
    touched, under a policy without save (export) the store is never
    touched, whatever the outcome of the call. *)
Theorem report_value_policy_separates_effects (m : Model) (name : Name)
    (value : Value) (conf : Conf) (save : string) (st : Reporter) :
  c_save conf = Some save ->
  (wants_export save = false ->
   disk_dirs (snd (report_value m name value conf st)) = disk_dirs st /\
   disk_writes (snd (report_value m name value conf st)) = disk_writes st /\
   logger_info (snd (report_value m name value conf st)) = logger_info st) /\
  (wants_save save = false ->
   variables (snd (report_value m name value conf st)) = variables st).
Proof.
  intros Hs.
  assert (Hnone : wants_export save = false -> wants_save save = false ->
                  snd (report_value m name value conf st) = st).
  { intros Hne Hns. apply report_value_no_policy. intros save' Hs'.
    assert (save' = save) by congruence. subst. rewrite Hne, Hns. reflexivity. }
  destruct (to_native value) as [v|e0] eqn:Hv.
  2:{ assert (Hsame : snd (report_value m name value conf st) = st).
      { unfold report_value, bind, lift. rewrite Hv. reflexivity. }
      rewrite Hsame. auto. }
  split.
  - intros Hne. destruct (wants_save save) eqn:Hws.
    + rewrite (report_value_unfold m name value v conf save st Hv Hs)
        by (rewrite Hne, Hws; reflexivity).
      unfold export_due. rewrite Hne, Hws. simpl.
      apply append_value_disk.
    + rewrite (Hnone Hne eq_refl). auto.
  - intros Hns. destruct (wants_export save) eqn:Hwe.
    + rewrite (report_value_unfold m name value v conf save st Hv Hs)
        by (rewrite Hwe; reflexivity).
      rewrite Hns.
      pose proof (export_value_variables name v conf st) as Hvar.
      destruct (export_due m conf save).
      * destruct (export_value name v conf st) as [[[]|e1] st1]; exact Hvar.
      * reflexivity.
    + rewrite (Hnone eq_refl Hns). reflexivity.
Qed.


End ReportValueProperties.

Section SplitProperties.

Context `{C : Collaborators}.

Lemma per_id_series_same (k : string) (id : ID) (st st' : Reporter) :
  same_for k st st' -> per_id_series k id st' = per_id_series k id st.
Proof. intros [Hv _]. unfold per_id_series. rewrite Hv. reflexivity. Qed.

Lemma holds_list_same (k : string) (st st' : Reporter) :
  same_for k st st' -> holds_list k st' = holds_list k st.
Proof. intros [Hv _]. unfold holds_list. rewrite Hv. reflexivity. Qed.

Lemma append_value_tuple_ok (n : string) (id : ID) (v : Value) (st st1 : Reporter) :
  append_value (NameTuple n id) v st = (Ok tt, st1) ->
  holds_list n st = false ->
  holds_list n st1 = false /\
  forall id', per_id_series n id' st1 =
              per_id_series n id' st ++ (if bool_decide (id = id') then [v] else []).
Proof.
  unfold append_value, per_id_series, holds_list, bind, get, modify, raise. simpl.
  destruct (dict_get n (variables st)) as [[l|d]|] eqn:Hget; intros Hrun Hlist;
    [discriminate Hlist| |]; destruct (ID_hashable id); simpl in Hrun;
    try discriminate Hrun;
    inversion Hrun; subst; clear Hrun; simpl; rewrite dict_get_set_eq;
    (split; [reflexivity|]); intros id'.
  - destruct (decide (id' = id)) as [->|Hne].
    + rewrite dict_get_set_eq, bool_decide_eq_true_2 by reflexivity. reflexivity.
    + rewrite dict_get_set_ne by exact Hne.
      rewrite bool_decide_eq_false_2 by congruence.
      rewrite app_nil_r. reflexivity.
  - simpl. destruct (decide (id' = id)) as [->|Hne].
    + rewrite bool_decide_eq_true_2 by reflexivity. reflexivity.
    + rewrite bool_decide_eq_false_2 by congruence. reflexivity.
Qed.

Lemma report_value_tuple_ok (m : Model) (n : string) (id : ID) (value : Value)
    (conf : Conf) (save : string) (st st1 : Reporter) :
  report_value m (NameTuple n id) value conf st = (Ok tt, st1) ->
  c_save conf = Some save ->
  wants_save save = true ->
  holds_list n st = false ->
  exists v,
    to_native value = Ok v /\
    holds_list n st1 = false /\
    forall id', per_id_series n id' st1 =
                per_id_series n id' st ++ (if bool_decide (id = id') then [v] else []).
Proof.
  intros Hrun Hs Hw Hlist.
  destruct (to_native value) as [v|e] eqn:Hv.
  2:{ unfold report_value, bind, lift in Hrun. rewrite Hv in Hrun. discriminate. }
  exists v. split; [reflexivity|].
  rewrite (report_value_unfold m _ value v conf save st Hv Hs) in Hrun
    by (rewrite Hw; apply orb_true_r).
  rewrite Hw in Hrun.
  destruct (export_due m conf save); simpl in Hrun; [discriminate|].
  apply append_value_tuple_ok; assumption.
Qed.

Lemma split_loop_ok (m : Model) (n : string) (ag : AgentClass) (conf : Conf)
    (save : string) (pairs : list (ID * Value)) :
  c_save conf = Some save ->
  wants_save save = true ->
  forall st st1 : Reporter,
    for_each pairs
      (fun pair => parse_agent_data m (NameTuple n (fst pair)) (snd pair) ag conf) st
    = (Ok tt, st1) ->
    holds_list n st = false ->
    exists nvs,
      native_values ag conf pairs = Some nvs /\
      forall id, per_id_series n id st1 = per_id_series n id st ++ values_of id nvs.
Proof.
  intros Hs Hw. induction pairs as [|[id v] pairs IH]; intros st st1 Hrun Hlist.
  - inversion Hrun; subst. exists []. split; [reflexivity|].
    intros id. unfold values_of. simpl. rewrite app_nil_r. reflexivity.
  - simpl in Hrun. unfold bind at 1 in Hrun. unfold parse_agent_data at 1 in Hrun.
    unfold bind at 1, lift in Hrun. simpl.
    destruct (apply_function v ag conf) as [raw|e]; [|discriminate].
    destruct (report_value m (NameTuple n id) raw conf st) as [[[]|e] sa] eqn:Hone;
      [|discriminate].
    destruct (report_value_tuple_ok m n id raw conf save st sa Hone Hs Hw Hlist)
      as (nv & Hnv & Hlist' & Hser).
    destruct (IH sa st1 Hrun Hlist') as (nvs & Hnvs & Hrest).
    rewrite Hnv, Hnvs. exists ((id, nv) :: nvs). split; [reflexivity|].
    intros id'. rewrite Hrest, Hser, <- app_assoc. f_equal.
    unfold values_of. simpl. destruct (bool_decide (id = id')); reflexivity.
Qed.

Lemma extract_split_ok (m : Model) (n : string) (conf : Conf) (save : string)
    (st st1 : Reporter) :
  extract_agent_data m n conf st = (Ok tt, st1) ->
  truthy (c_split conf) = true ->
  c_save conf = Some save ->
  wants_save save = true ->
  holds_list n st = false ->
  exists nvs,
    split_values m conf = Some nvs /\
    forall id, per_id_series n id st1 = per_id_series n id st ++ values_of id nvs.
Proof.
  unfold extract_agent_data, split_values. intros Hrun Hsplit Hs Hw Hlist.
  destruct (c_type conf) as [type|]; [|discriminate].
  destruct (agents m) as [all_agents|]; [|discriminate].
  destruct (dict_get type all_agents) as [ag|]; [|discriminate].
  destruct (c_varname conf) as [varname|]; [|discriminate].
  destruct (dict_get varname (attrs ag)) as [values|]; [|discriminate].
  rewrite Hsplit in Hrun.
  destruct (ids ag) as [agent_ids|]; [|discriminate].
  unfold bind at 1, lift in Hrun.
  destruct (iterate values) as [admin|e]; [|discriminate].
  eapply split_loop_ok; eassumption.
Qed.

(** A successful [step] seen from one directive of the table: before and
    after the directive's own call nothing of its name changes. *)
Lemma step_focus (m : Model) (name : string) (conf : Conf) (st st1 : Reporter) :
  step m st = (Ok tt, st1) ->
  has_directive m name conf ->
  exists sa sb,
    same_for name st sa /\
    extract_agent_data m name conf sa = (Ok tt, sb) /\
    same_for name sb st1.
Proof.
  rewrite step_unfold. intros Hrun [Hnodup Hin].
  destruct (in_split _ _ Hin) as (pre & post & Hds).
  rewrite Hds in Hrun, Hnodup.
  set (body := fun d : string * Conf => extract_agent_data m (fst d) (snd d)) in *.
  set (st0 := push_timestep (current_time m) st) in *.
  assert (Hother : forall ds, ~ In name (map fst ds) ->
                     forall s, same_for name s (snd (for_each ds body s))).
  { intros ds Hnot. apply for_each_preserves.
    - apply same_for_refl.
    - apply same_for_trans.
    - intros d s Hd. apply extract_agent_data_frame.
      intros Heq. apply Hnot. rewrite <- Heq. apply in_map. exact Hd. }
  rewrite map_app in Hnodup. simpl in Hnodup.
  apply NoDup_ListNoDup in Hnodup.
  pose proof (List.NoDup_remove_2 _ _ _ Hnodup) as Hnotin.
  assert (Hpre : ~ In name (map fst pre)) by (intros H; apply Hnotin, in_or_app; auto).
  assert (Hpost : ~ In name (map fst post)) by (intros H; apply Hnotin, in_or_app; auto).
  rewrite for_each_app in Hrun.
  pose proof (Hother pre Hpre st0) as Fpre.
  destruct (for_each pre body st0) as [[[]|e] sa]; [|discriminate].
  simpl in Hrun, Fpre. unfold bind in Hrun.
  destruct (body (name, conf) sa) as [[[]|e] sb] eqn:Hown; [|discriminate].
  pose proof (Hother post Hpost sb) as Fpost. rewrite Hrun in Fpost. simpl in Fpost.
  exists sa, sb. split; [|split; [exact Hown|exact Fpost]].
  eapply same_for_trans; [|exact Fpre]. split; reflexivity.
Qed.

Lemma values_of_distinct (pairs : list (ID * Value)) (id : ID) (v : Value) :
  NoDup (map fst pairs) -> In (id, v) pairs -> values_of id pairs = [v].
Proof.
  induction pairs as [|[id0 v0] pairs IH]; intros Hnd Hin; [contradiction|].
  simpl in Hnd. apply NoDup_cons in Hnd. destruct Hnd as [Hfresh Hnd].
  assert (Hnone : forall ps : list (ID * Value),
             ~ In id0 (map fst ps) -> values_of id0 ps = []).
  { induction ps as [|[i x] ps IHps]; intros Hn; [reflexivity|].
    unfold values_of in *. simpl in *.
    rewrite bool_decide_eq_false_2 by (intros ->; apply Hn; auto).
    apply IHps. intros H. apply Hn. auto. }
  unfold values_of. simpl. destruct Hin as [Heq|Hin].
  - inversion Heq; subst. rewrite bool_decide_eq_true_2 by reflexivity. simpl.
    f_equal. apply Hnone. intros H. apply Hfresh. apply list_elem_of_In. exact H.
  - rewrite bool_decide_eq_false_2.
    + apply IH; assumption.
    + simpl. intros ->. apply Hfresh. apply list_elem_of_In.
      apply (in_map fst) in Hin. exact Hin.
Qed.

(** X7: one successful step seen from a split directive that saves,
    on a reporter that does not hold a plain list under the directive's
    name: the attribute is zipped with the ids of the agent class (the
    shorter of the two ends the zip), and the series of every entity id
    grows by the values of the pairs that carry this id, in order: by
    exactly one value for an id that occurs once, by nothing for an id
    that is not in the zip. *)
Theorem split_step_appends_per_entity (m : Model) (name : string) (conf : Conf)
    (save : string) (st st1 : Reporter) :
  step m st = (Ok tt, st1) ->
  has_directive m name conf ->
  truthy (c_split conf) = true ->
  c_save conf = Some save ->
  wants_save save = true ->
  holds_list name st = false ->
  exists pairs,
    split_values m conf = Some pairs /\
    (forall id, per_id_series name id st1 =
                per_id_series name id st ++ values_of id pairs) /\
    (NoDup (map fst pairs) ->
     forall id v, In (id, v) pairs ->
                  per_id_series name id st1 = per_id_series name id st ++ [v]) /\
    (forall id, ~ In id (map fst pairs) ->
                per_id_series name id st1 = per_id_series name id st).
Proof.
  intros Hstep Hdir Hsplit Hs Hw Hlist.
  destruct (step_focus m name conf st st1 Hstep Hdir) as (sa & sb & Fa & Hown & Fb).
  rewrite <- (holds_list_same name st sa Fa) in Hlist.
  destruct (extract_split_ok m name conf save sa sb Hown Hsplit Hs Hw Hlist)
    as (pairs & Hpairs & Hser).
  assert (Hall : forall id, per_id_series name id st1 =
                            per_id_series name id st ++ values_of id pairs).
  { intros id. rewrite (per_id_series_same name id sb st1 Fb), Hser,
      (per_id_series_same name id st sa Fa). reflexivity. }
  exists pairs. split; [exact Hpairs|]. split; [exact Hall|]. split.
  - intros Hnd id v Hin. rewrite Hall, (values_of_distinct pairs id v Hnd Hin).
    reflexivity.
  - intros id Hnot. rewrite Hall.
    assert (Hnone : values_of id pairs = []).
    { clear -Hnot. induction pairs as [|[i x] ps IH]; [reflexivity|].
      unfold values_of in *. simpl in *.
      rewrite bool_decide_eq_false_2 by (intros ->; apply Hnot; auto).
      apply IH. intros H. apply Hnot. auto. }
    rewrite Hnone, app_nil_r. reflexivity.
Qed.

End SplitProperties.

Section ExportProperties.

Context `{C : Collaborators}.



(** X9: where cupy could not be imported the csv branch of export_value
    cannot run: it raises NameError (cp is not defined) for every value,
    with the folder created and no file written. *)
Theorem csv_snapshot_needs_cupy (n : string) (value : Value) (conf : Conf)
    (st : Reporter) (fn : string) :
  cupy_imported = false ->
  c_format conf = Some "csv" ->
  snapshot_filename conf st = Ok fn ->
  export_value (NameStr n) value conf st =
  (Raise (NameError "name 'cp' is not defined"),
   makedirs (path_join (export_folder st) n) st).
Proof.
  intros Hcupy Hf Hfn. unfold export_value, bind, get, modify, lift, raise. simpl.
  rewrite Hf, Hfn. simpl. unfold csv_items. rewrite Hcupy. reflexivity.
Qed.

Lemma remove_char_gone (c : ascii) (s : string) :
  ~ In c (list_ascii_of_string (remove_char c s)).
Proof.
  induction s as [|c' s IH]; simpl; [auto|].
  destruct (Ascii.eqb_spec c' c) as [->|Hne]; [exact IH|].
  simpl. intros [Heq|Hin]; [congruence|contradiction].
Qed.

Lemma remove_char_subset (c d : ascii) (s : string) :
  In d (list_ascii_of_string (remove_char c s)) -> In d (list_ascii_of_string s).
Proof.
  induction s as [|c' s IH]; simpl; [auto|].
  destruct (Ascii.eqb c' c); simpl; [auto|]. intros [Heq|Hin]; auto.
Qed.

Lemma remove_char_keeps (c d : ascii) (s : string) :
  d <> c -> In d (list_ascii_of_string s) ->
  In d (list_ascii_of_string (remove_char c s)).
Proof.
  intros Hne. induction s as [|c' s IH]; simpl; [auto|].
  intros [Heq|Hin].
  - subst c'. destruct (Ascii.eqb_spec d c); [contradiction|]. simpl. auto.
  - destruct (Ascii.eqb c' c); simpl; auto.
Qed.

(** X10: the file name of a snapshot, whenever export_value can form it,
    contains neither '-' nor ':'; when it is the time stamp it keeps
    every other character of the clock's isoformat. *)
Theorem snapshot_filename_has_no_separator (conf : Conf) (st : Reporter) (fn : string) :
  snapshot_filename conf st = Ok fn ->
  ~ In "-"%char (list_ascii_of_string fn) /\
  ~ In ":"%char (list_ascii_of_string fn) /\
  (fn = "initial" \/
   exists t, last (timesteps st) = Some t /\
             forall d, d <> "-"%char -> d <> ":"%char ->
                       In d (list_ascii_of_string (isoformat t)) ->
                       In d (list_ascii_of_string fn)).
Proof.
  unfold snapshot_filename.
  destruct (match c_frequency conf with Some _ => _ | None => _ end).
  - intros H. inversion H; subst. split; [|split; [|left; reflexivity]].
    + simpl. intuition discriminate.
    + simpl. intuition discriminate.
  - destruct (last (timesteps st)) as [t|]; [|discriminate].
    intros H. inversion H; subst. split; [|split].
    + intros Hin. apply remove_char_subset in Hin. exact (remove_char_gone _ _ Hin).
    + apply remove_char_gone.
    + right. exists t. split; [reflexivity|]. intros d Hd1 Hd2 Hin.
      apply remove_char_keeps; [exact Hd2|]. apply remove_char_keeps; assumption.
Qed.

(** X11: over a run of successful calls of step, a non-split directive
    is exported once at every call at which its export is due (its save
    policy includes export and it is not initial_only, or the model's
    timestep is 0) and at no other call; a directive that only saves is
    never exported. *)
Theorem exports_once_per_due_step (ms : list Model) (name : string) (conf : Conf)
    (save : string) :
  forall st st' : Reporter,
    run ms st = (Ok tt, st') ->
    Forall (fun m => has_directive m name conf) ms ->
    truthy (c_split conf) = false ->
    c_save conf = Some save ->
    snapshots name st' =
    (snapshots name st +
     length (List.filter (fun m => export_due m conf save) ms))%nat /\
    (wants_export save = false -> snapshots name st' = snapshots name st).
Proof.
  induction ms as [|m ms IH]; intros st st' Hrun Hall Hsplit Hsave.
  - inversion Hrun; subst. simpl. split; [lia|reflexivity].
  - rewrite run_cons in Hrun.
    destruct (step m st) as [[[]|e] st1] eqn:Hstep; [|discriminate].
    inversion Hall as [|? ? Hm Hms]; subst.
    destruct (step_own m name conf st st1 Hstep Hm Hsplit)
      as (v & save' & _ & Hs' & _ & Hsnap).
    assert (save' = save) by congruence. subst save'.
    destruct (IH st1 st' Hrun Hms Hsplit Hsave) as [Hcount Hnever].
    fold (export_due m conf save) in Hsnap.
    split.
    + rewrite Hcount, Hsnap. simpl.
      destruct (export_due m conf save); simpl; lia.
    + intros Hno. rewrite (Hnever Hno), Hsnap.
      unfold export_due. rewrite Hno. simpl. lia.
Qed.

End ExportProperties.

Section ReportProperties.

Context `{C : Collaborators}.

Lemma report_one_effect (m : Model) (name : string) (values : Series) (st : Reporter) :
  variables (snd (report_one m name values st)) = variables st /\
  timesteps (snd (report_one m name values st)) = timesteps st /\
  export_folder (snd (report_one m name values st)) = export_folder st /\
  disk_dirs (snd (report_one m name values st)) = disk_dirs st /\
  match fst (report_one m name values st) with
  | Ok _ => exists w, disk_writes (snd (report_one m name values st))
                      = disk_writes st ++ [w] /\
                      table_written m (export_folder st) (name, values) w
  | Raise _ => snd (report_one m name values st) = st
  end.
Proof.
  unfold report_one, table_written, directives, bind, get, lift, modify, raise. simpl.
  destruct (build_frame name values st) as [df|e]; simpl; [|auto 6].
  destruct (config m) as [cfg|]; simpl; [|auto 6].
  destruct (cfg_report cfg) as [ds|]; simpl; [|auto 6].
  destruct (dict_get name ds) as [conf|] eqn:Hconf; simpl; [|auto 6].
  destruct (c_format conf) as [format|] eqn:Hf; simpl; [|auto 6].
  unfold table_format.
  destruct (String.eqb format "csv") eqn:E1; simpl.
  { repeat split. eexists. split; [reflexivity|]. simpl.
    split; [reflexivity|]. split; [reflexivity|].
    exists conf, format. rewrite E1. auto. }
  destruct (String.eqb format "xlsx") eqn:E2; simpl.
  { repeat split. eexists. split; [reflexivity|]. simpl.
    split; [reflexivity|]. split; [reflexivity|].
    exists conf, format. rewrite E1, E2. auto. }
  destruct (String.eqb format "npy") eqn:E3; simpl; [|auto 6].
  repeat split. eexists. split; [reflexivity|]. simpl.
  split; [reflexivity|]. split; [reflexivity|].
  exists conf, format. rewrite E1, E2, E3. auto.
Qed.

Lemma report_loop (m : Model) (items : list (string * Series)) :
  forall st st' : Reporter,
    for_each items (fun item => report_one m (fst item) (snd item)) st = (Ok tt, st') ->
    export_folder st' = export_folder st /\
    exists ws, disk_writes st' = disk_writes st ++ ws /\
               Forall2 (table_written m (export_folder st)) items ws.
Proof.
  induction items as [|[name values] items IH]; intros st st' Hrun.
  - inversion Hrun; subst. split; [reflexivity|]. exists [].
    rewrite app_nil_r. split; [reflexivity|constructor].
  - simpl in Hrun. unfold bind at 1 in Hrun.
    destruct (report_one_effect m name values st) as (_ & _ & Hf & _ & Hw).
    destruct (report_one m name values st) as [[[]|e] st1]; [|discriminate].
    simpl in Hf, Hw. destruct Hw as (w & Hw & Htab).
    destruct (IH st1 st' Hrun) as (Hf' & ws & Hws & Hall).
    split; [congruence|]. exists (w :: ws). split.
    + rewrite Hws, Hw, <- app_assoc. reflexivity.
    + constructor; [exact Htab|]. rewrite Hf in Hall. exact Hall.
Qed.

(** X12: report does not consume what it flushes: whatever its outcome,
    the store, the recorded times and the folders are as before, so it
    can be called again.  When it returns it has written exactly one
    table per name of the store, in the order of the store, each at
    <export folder>/<name>.<format> with the format of the directive of
    that name, which is csv, xlsx or npy. *)
Theorem report_flushes_without_consuming (m : Model) (st : Reporter) :
  variables (snd (report m st)) = variables st /\
  timesteps (snd (report m st)) = timesteps st /\
  disk_dirs (snd (report m st)) = disk_dirs st /\
  (is_ok (fst (report m st)) = true ->
   exists ws,
     disk_writes (snd (report m st)) = disk_writes st ++ ws /\
     Forall2 (table_written m (export_folder st)) (variables st) ws).
Proof.
  assert (Hkeep : forall items s,
            variables (snd (for_each items
                              (fun item => report_one m (fst item) (snd item)) s))
            = variables s /\
            timesteps (snd (for_each items
                              (fun item => report_one m (fst item) (snd item)) s))
            = timesteps s /\
            disk_dirs (snd (for_each items
                              (fun item => report_one m (fst item) (snd item)) s))
            = disk_dirs s).
  { intros items.
    apply (for_each_preserves
             (fun a b => variables b = variables a /\ timesteps b = timesteps a /\
                         disk_dirs b = disk_dirs a)).
    - auto.
    - intros a b c (A1 & A2 & A3) (B1 & B2 & B3). repeat split; congruence.
    - intros item s _.
      destruct (report_one_effect m (fst item) (snd item) s) as (H1 & H2 & _ & H4 & _).
      auto. }
  specialize (Hkeep (variables st) st).
  unfold report, bind, get, ret. simpl.
  destruct (for_each (variables st) _ st) as [[[]|e] st1] eqn:Hloop; simpl in *.
  - destruct Hkeep as (H1 & H2 & H3). repeat split; try assumption.
    intros _. destruct (report_loop m (variables st) st st1 Hloop) as (_ & ws & Hws & Hall).
    exists ws. split; assumption.
  - destruct Hkeep as (H1 & H2 & H3). repeat split; try assumption. discriminate.
Qed.

(** X13: the constructor.  Without the agents it raises NameError before
    it touches the disk.  With agents and a configuration it names the
    export folder (the report folder, joined with a non-empty subfolder),
    creates it, keeps every folder that was there, and takes exactly one
    step: whether that step returns or raises, the recorded times are the
    model's current time alone. *)
Theorem constructor_takes_one_step (m : Model) (subfolder : option string)
    (dirs : list string) :
  (agents m = None ->
   exists msg, fst (init m subfolder dirs) = Raise (NameError msg) /\
               disk_dirs (snd (init m subfolder dirs)) = dirs /\
               timesteps (snd (init m subfolder dirs)) = []) /\
  (forall all_agents cfg,
     agents m = Some all_agents ->
     config m = Some cfg ->
     timesteps (snd (init m subfolder dirs)) = [current_time m] /\
     export_folder (snd (init m subfolder dirs)) =
     match subfolder with
     | Some sub => if Nat.eqb (String.length sub) 0 then report_folder cfg
                   else path_join (report_folder cfg) sub
     | None => report_folder cfg
     end /\
     In (export_folder (snd (init m subfolder dirs)))
        (disk_dirs (snd (init m subfolder dirs))) /\
     exists ds, disk_dirs (snd (init m subfolder dirs)) = dirs ++ ds).
Proof.
  split.
  - intros Hno. unfold init. rewrite Hno. eexists. simpl. auto.
  - intros all_agents cfg Ha Hc. unfold init. rewrite Ha, Hc.
    set (folder := match subfolder with
                   | Some sub => if Nat.eqb (String.length sub) 0 then report_folder cfg
                                 else path_join (report_folder cfg) sub
                   | None => report_folder cfg
                   end).
    set (blank := {| variables := []; timesteps := []; export_folder := folder;
                     disk_dirs := dirs; disk_writes := []; logger_info := [] |}).
    unfold maybe_create_export_folder, bind, get, modify. simpl.
    destruct (step_grows m (makedirs folder blank)) as (Ht & Hf & [ds Hd] & _).
    simpl in Ht, Hf, Hd.
    split; [exact Ht|]. split; [exact Hf|].
    assert (Hin : In folder (disk_dirs (makedirs folder blank))).
    { unfold makedirs. simpl. destruct (decide (folder ∈ dirs)) as [H|H].
      - apply list_elem_of_In. exact H.
      - apply in_or_app. right. left. reflexivity. }
    split.
    + rewrite Hf, Hd. apply in_or_app. left. exact Hin.
    + rewrite Hd. unfold makedirs. simpl. destruct (decide (folder ∈ dirs)).
      * exists ds. reflexivity.
      * exists ([folder] ++ ds). rewrite app_assoc. reflexivity.
Qed.

End ReportProperties.

(** ** Further properties of the kernels *)

Lemma index_wraps (n : nat) (g : Z) :
  - Z.of_nat n <= g < Z.of_nat n ->
  index n g = index n (g mod Z.of_nat n) /\ (g mod Z.of_nat n <? Z.of_nat n) = true.
Proof.
  intros Hg. assert (Hpos : 0 < Z.of_nat n) by lia.
  destruct (Z.neg_nonneg_cases g) as [Hneg|Hnn].
  - assert (Hmod : g mod Z.of_nat n = g + Z.of_nat n).
    { symmetry. apply (Z.mod_unique_pos g (Z.of_nat n) (-1)); lia. }
    rewrite Hmod. split; [|apply Z.ltb_lt; lia].
    rewrite (index_in_range n (g + Z.of_nat n)) by lia.
    unfold index.
    destruct (Z.leb_spec 0 g) as [H|_]; [lia|]. simpl.
    destruct (Z.leb_spec (- Z.of_nat n) g) as [_|H]; [|lia].
    destruct (Z.ltb_spec g 0) as [_|H]; [|lia]. reflexivity.
  - rewrite Z.mod_small by lia. split; [reflexivity|apply Z.ltb_lt; lia].
Qed.

Section KernelWrap.

Variable D : DType.

Lemma sum_loop_wraps (values : list (elt D)) :
  forall (group_ids : list Z) (acc : list (elt D)) (n_groups : Z),
    n_groups = Z.of_nat (length acc) ->
    Forall (fun g => - n_groups <= g < n_groups) group_ids ->
    sum_loop D values group_ids n_groups acc =
    sum_loop D values (map (fun g => g mod n_groups) group_ids) n_groups acc.
Proof.
  induction values as [|v values IH]; intros group_ids acc n_groups Hn Hall.
  - destruct group_ids; reflexivity.
  - destruct group_ids as [|g group_ids]; [reflexivity|].
    inversion Hall as [|? ? Hg Hall']; subst. simpl.
    destruct (index_wraps (length acc) g Hg) as [Hidx Hlt].
    rewrite Hlt, <- Hidx.
    destruct (Z.ltb_spec g (Z.of_nat (length acc))) as [_|H]; [|lia].
    destruct (index_from_end (length acc) g Hg) as (k & -> & _).
    apply IH; [rewrite length_alter; reflexivity|exact Hall'].
Qed.

Lemma mean_loop_wraps (values : list (elt D)) :
  forall (group_ids : list Z) (counts : list Z) (sums : list (elt D)) (n_groups : Z),
    n_groups = Z.of_nat (length counts) ->
    length counts = length sums ->
    Forall (fun g => - n_groups <= g < n_groups) group_ids ->
    mean_loop D values group_ids n_groups counts sums =
    mean_loop D values (map (fun g => g mod n_groups) group_ids) n_groups counts sums.
Proof.
  induction values as [|v values IH]; intros group_ids counts sums n_groups Hn Hlen Hall.
  - destruct group_ids; reflexivity.
  - destruct group_ids as [|g group_ids]; [reflexivity|].
    inversion Hall as [|? ? Hg Hall']; subst. simpl.
    destruct (index_wraps (length counts) g Hg) as [Hidx Hlt].
    rewrite Hlt, <- Hlen, <- Hidx.
    destruct (Z.ltb_spec g (Z.of_nat (length counts))) as [_|H]; [|lia].
    destruct (index_from_end (length counts) g Hg) as (k & -> & _).
    apply IH; [rewrite length_alter; reflexivity|rewrite !length_alter; exact Hlen|exact Hall'].
Qed.

(** X14: both kernels take a group id g in [-N, 0) for the id g + N (a
    negative index counts from the end of the result): on equal lengths
    with every id in [-N, N) they return what they return on the ids
    reduced modulo N, so slot k of sum_per_ID is the sum of the values
    whose id is k or k - N. *)
Theorem negative_ids_count_from_the_end (values : list (elt D)) (group_ids : list Z)
    (n_groups : Z) :
  length values = length group_ids ->
  Forall (fun g => - n_groups <= g < n_groups) group_ids ->
  sum_per_ID D values group_ids n_groups =
  sum_per_ID D values (map (fun g => g mod n_groups) group_ids) n_groups /\
  mean_per_ID D values group_ids n_groups =
  mean_per_ID D values (map (fun g => g mod n_groups) group_ids) n_groups /\
  (0 <= n_groups ->
   exists out,
     sum_per_ID D values group_ids n_groups = Ok out /\
     length out = Z.to_nat n_groups /\
     forall k, 0 <= k < n_groups ->
       out !! Z.to_nat k =
       Some (group_sum D values (map (fun g => g mod n_groups) group_ids) k)).
Proof.
  intros Hlen Hall.
  assert (Hsum : sum_per_ID D values group_ids n_groups =
                 sum_per_ID D values (map (fun g => g mod n_groups) group_ids) n_groups).
  { unfold sum_per_ID. rewrite length_map.
    destruct (Nat.eqb (length values) (length group_ids)); [|reflexivity].
    unfold zeros. destruct (n_groups <? 0) eqn:Hneg; [reflexivity|].
    apply Z.ltb_ge in Hneg. apply sum_loop_wraps; [|exact Hall].
    rewrite length_replicate. lia. }
  split; [exact Hsum|]. split.
  - unfold mean_per_ID. rewrite length_map.
    destruct (Nat.eqb (length values) (length group_ids)); [|reflexivity].
    unfold zeros. destruct (n_groups <? 0) eqn:Hneg; [reflexivity|].
    apply Z.ltb_ge in Hneg. rewrite mean_loop_wraps; [reflexivity| | |exact Hall].
    + rewrite length_replicate. lia.
    + rewrite !length_replicate. reflexivity.
  - intros Hn. rewrite Hsum. apply sum_per_ID_slots.
    + rewrite length_map. exact Hlen.
    + exact Hn.
    + apply List.Forall_forall. intros x Hx. apply in_map_iff in Hx.
      destruct Hx as (g & <- & Hg).
      rewrite List.Forall_forall in Hall. specialize (Hall g Hg).
      apply Z.mod_pos_bound. lia.
Qed.

End KernelWrap.

Lemma wrap64_mod (x : Z) : wrap64 x mod 2 ^ 64 = x mod 2 ^ 64.
Proof.
  unfold wrap64, wrap.
  change (2 ^ (64 - 1)) with 9223372036854775808.
  change (2 ^ 64) with 18446744073709551616.
  rewrite Zminus_mod_idemp_l. f_equal. lia.
Qed.

Lemma total_alter (v : Z) (acc : list Z) :
  forall k : nat,
    (k < length acc)%nat ->
    fold_right Z.add 0 (alter (fun s => add int64 s v) k acc) mod 2 ^ 64 =
    (fold_right Z.add 0 acc + v) mod 2 ^ 64.
Proof.
  induction acc as [|a acc IH]; intros k Hk; [simpl in Hk; lia|].
  destruct k as [|k]; cbn [alter list_alter fold_right add int64].
  - rewrite Zplus_mod, wrap64_mod, <- Zplus_mod. f_equal. lia.
  - rewrite Zplus_mod.
    change (list_alter (fun s => wrap64 (s + v)) k acc)
      with (alter (fun s => add int64 s v) k acc).
    rewrite IH by (simpl in Hk; lia).
    rewrite <- Zplus_mod. f_equal. lia.
Qed.

Lemma sum_loop_total (values : list Z) :
  forall (group_ids : list Z) (n_groups : Z) (acc out : list Z),
    length values = length group_ids ->
    n_groups = Z.of_nat (length acc) ->
    Forall (fun g => - n_groups <= g) group_ids ->
    sum_loop int64 values group_ids n_groups acc = Ok out ->
    fold_right Z.add 0 out mod 2 ^ 64 =
    (fold_right Z.add 0 acc + fold_right Z.add 0 values) mod 2 ^ 64.
Proof.
  induction values as [|v values IH]; intros group_ids n_groups acc out Hlen Hn Hall Hrun.
  - destruct group_ids; [|discriminate]. simpl in Hrun. inversion Hrun; subst.
    change (fold_right Z.add 0 []) with 0. rewrite Z.add_0_r. reflexivity.
  - destruct group_ids as [|g group_ids]; [discriminate|].
    inversion Hall as [|? ? Hg Hall']; subst.
    simpl in Hrun.
    destruct (Z.ltb_spec g (Z.of_nat (length acc))) as [Hlt|_]; [|discriminate].
    destruct (index_from_end (length acc) g (conj Hg Hlt)) as (k & Hidx & Hk).
    rewrite Hidx in Hrun.
    assert (Hlen' : length values = length group_ids) by (simpl in Hlen; lia).
    assert (Hn' : Z.of_nat (length acc) =
                  Z.of_nat (length (alter (fun s => add int64 s v) k acc)))
      by (rewrite length_alter; reflexivity).
    rewrite Hn' in Hrun, Hall'.
    rewrite (IH _ _ _ _ Hlen' eq_refl Hall' Hrun).
    clear Hn' Hrun Hall'. rename Hk into Hidx'.
    match goal with
    | |- (?X + _) mod _ = _ =>
        assert (Ht : X mod 2 ^ 64 = (fold_right Z.add 0 acc + v) mod 2 ^ 64)
          by exact (total_alter v acc k Hidx')
    end.
    rewrite Zplus_mod, Ht, <- Zplus_mod.
    cbn [fold_right]. f_equal. lia.
Qed.

(** X15: sum_per_ID loses no value and counts none twice when no group
    id is below -N: whenever it then returns on an int64 array, the slots
    of the result add up to the sum of all the values, modulo 2^64 (the
    group ids, those in [-N, 0) included, only decide the slot). *)
Theorem sum_per_ID_preserves_total (values group_ids : list Z) (n_groups : Z)
    (out : list Z) :
  Forall (fun g => - n_groups <= g) group_ids ->
  sum_per_ID int64 values group_ids n_groups = Ok out ->
  fold_right Z.add 0 out mod 2 ^ 64 = fold_right Z.add 0 values mod 2 ^ 64.
Proof.
  intros Hall. unfold sum_per_ID.
  destruct (Nat.eqb _ _) eqn:Hlen; [|intros H; discriminate H].
  apply Nat.eqb_eq in Hlen.
  unfold zeros. destruct (Z.ltb_spec n_groups 0) as [Hneg|Hn]; [intros H; discriminate H|].
  intros Hrun.
  assert (Hlr : n_groups = Z.of_nat (length (replicate (Z.to_nat n_groups) (zero int64))))
    by (rewrite length_replicate; lia).
  rewrite (sum_loop_total values _ _ _ _ Hlen Hlr Hall Hrun).
  f_equal.
  assert (Hz : forall n : nat, fold_right Z.add 0 (replicate n 0) = 0)
    by (induction n as [|n IHn]; simpl; [reflexivity|exact IHn]).
  exact (f_equal (fun z => z + fold_right Z.add 0 values) (Hz (Z.to_nat n_groups))).
Qed.

Section ReductionProperties.

Context `{C : Collaborators}.

(** X16: when a directive names a function and has no ids key,
    parse_agent_data reduces the whole attribute of the agent class, read
    again by its name, and not the values it was handed: for a split
    directive every entity is given the reduction of the whole
    collection. *)
Theorem reduction_without_ids_ignores_values (agents : AgentClass) (conf : Conf)
    (varname : string) (whole : Value) :
  c_ids conf = None ->
  c_varname conf = Some varname ->
  dict_get varname (attrs agents) = Some whole ->
  forall values,
    (c_function conf = Some (FStr "mean") ->
     apply_function values agents conf = np_mean whole) /\
    (c_function conf = Some (FStr "sum") ->
     apply_function values agents conf = np_sum whole) /\
    (forall fn, c_function conf = Some (FCallable fn) ->
                apply_function values agents conf = fn [whole]) /\
    (c_function conf = Some FNone -> apply_function values agents conf = Ok values).
Proof.
  intros Hids Hvar Hwhole values. unfold apply_function, getattr.
  rewrite Hids, Hvar, Hwhole.
  repeat split; intros; match goal with H : c_function conf = _ |- _ => rewrite H end;
    reflexivity.
Qed.

(** [items] succeeds on size-one NumPy values only. *)
Lemma items_ok (l : list Value) (ss : list Scalar) :
  items l = Ok ss <->
  exists ps : list (NpType * Scalar),
    l = map (fun p => NdArray (fst p) [snd p]) ps /\ ss = map snd ps.
Proof.
  revert ss. induction l as [|v l IH]; intros ss; simpl.
  - split.
    + intros H. inversion H. exists []. split; reflexivity.
    + intros ([|p ps] & Hl & ->); [reflexivity|discriminate].
  - split.
    + destruct v as [s|dtype [|s [|s' a]]|l0]; simpl; try discriminate.
      destruct (items l) as [ss'|e] eqn:Hl; [|discriminate].
      intros H. inversion H; subst.
      destruct (proj1 (IH ss') eq_refl) as (ps & -> & ->).
      exists ((dtype, s) :: ps). split; reflexivity.
    + intros ([|[dtype s] ps] & Hl & ->); [discriminate|].
      simpl in Hl. inversion Hl; subst. simpl.
      rewrite (proj2 (IH (map snd ps))); [reflexivity|].
      exists ps. split; reflexivity.
Qed.

Lemma check_values_ok (ss : list Scalar) :
  check_values ss = Ok tt <-> forallb accepted ss = true.
Proof.
  induction ss as [|s ss IH]; simpl; [split; reflexivity|].
  destruct (check_value s) as [[]|e] eqn:Hs.
  - apply check_value_accepted in Hs. rewrite Hs. simpl. exact IH.
  - assert (Hrej : accepted s = false).
    { destruct (accepted s) eqn:Ha; [|reflexivity].
      apply check_value_accepted in Ha. congruence. }
    rewrite Hrej. simpl. split; discriminate.
Qed.

(** X17: report_value takes a Python list exactly when every element is
    a NumPy value of size one (of whatever dtype) holding None, a bool,
    an int or a float that is not infinite; the list it goes on with has
    the native scalars of the elements, in order and as many.  A list of
    native Python numbers is refused (they have no item()). *)
Theorem list_value_must_hold_numpy_scalars (l : list Value) (v : Value) :
  to_native (PyList l) = Ok v <->
  exists ps : list (NpType * Scalar),
    l = map (fun p => NdArray (fst p) [snd p]) ps /\
    forallb accepted (map snd ps) = true /\
    v = PyList (map Py (map snd ps)).
Proof.
  unfold to_native. split.
  - destruct (items l) as [ss|e] eqn:Hl; [|discriminate].
    destruct (check_values ss) as [[]|e] eqn:Hc; [|discriminate].
    intros H. inversion H; subst.
    destruct (proj1 (items_ok l ss) Hl) as (ps & Hps & ->).
    exists ps. split; [exact Hps|]. split; [apply check_values_ok; exact Hc|reflexivity].
  - intros (ps & Hl & Hacc & Hv). subst v.
    assert (Hitems : items l = Ok (map snd ps))
      by (apply items_ok; exists ps; split; [exact Hl|reflexivity]).
    rewrite Hitems, (proj2 (check_values_ok (map snd ps)) Hacc). reflexivity.
Qed.

Lemma as_ints_map (zs : list Z) : as_ints (map PyInt zs) = Some zs.
Proof. induction zs as [|z zs IH]; simpl; [reflexivity|]. rewrite IH. reflexivity. Qed.

(** X18: for a directive with function 'sum' and an ids key, on an
    attribute that is a signed integer array of some width and integer
    group ids of the same length, all in [0, N) for N the size of
    conf['ids'] (only its size is read), the value handed to
    report_value is the array of the attribute's dtype and of length N
    whose slot g is the sum of the values with group id g, wrapped to
    the width of that dtype. *)
Theorem sum_directive_reports_group_sums (agents : AgentClass) (conf : Conf)
    (scale : string) (ids_dtype : NpType) (ids_array : list Scalar)
    (bits group_bits : Z) (vs gs : list Z) :
  c_function conf = Some (FStr "sum") ->
  c_ids conf = Some (NdArray ids_dtype ids_array) ->
  c_scale conf = Some scale ->
  dict_get scale (attrs agents) = Some (NdArray (np_int group_bits) (map PyInt gs)) ->
  length vs = length gs ->
  Forall (fun g => 0 <= g < Z.of_nat (length ids_array)) gs ->
  exists out,
    apply_function (NdArray (np_int bits) (map PyInt vs)) agents conf
    = Ok (NdArray (np_int bits) (map PyInt out)) /\
    length out = length ids_array /\
    forall g, 0 <= g < Z.of_nat (length ids_array) ->
      out !! Z.to_nat g = Some (group_sum (int_ bits) vs gs g).
Proof.
  intros Hf Hids Hscale Hgs Hlen Hall.
  destruct (sum_per_ID_slots (int_ bits) vs gs (Z.of_nat (length ids_array)) Hlen
              ltac:(lia) Hall) as (out & Hout & Hl & Hslots).
  exists out. split; [|split; [etransitivity; [exact Hl|apply Nat2Z.id]|exact Hslots]].
  unfold apply_function, getattr, size. rewrite Hf, Hids, Hscale, Hgs.
  change (String.eqb "sum" "mean") with false.
  change (String.eqb "sum" "sum") with true. cbv iota.
  unfold call_kernel. rewrite !as_ints_map.
  cbv iota beta zeta. unfold run_kernel. rewrite Hout. reflexivity.
Qed.

End ReductionProperties.

Section FailureProperties.

Context `{C : Collaborators}.

Lemma extract_nonsplit_raise (m : Model) (n : string) (conf : Conf)
    (st st' : Reporter) (e : Exc) :
  truthy (c_split conf) = false ->
  extract_agent_data m n conf st = (Raise e, st') ->
  variables st' = variables st /\ timesteps st' = timesteps st.
Proof.
  intros Hsplit. unfold extract_agent_data.
  destruct (c_type conf) as [type|]; [|intros H; inversion H; auto].
  destruct (agents m) as [all_agents|]; [|intros H; inversion H; auto].
  destruct (dict_get type all_agents) as [ag|]; [|intros H; inversion H; auto].
  destruct (c_varname conf) as [varname|]; [|intros H; inversion H; auto].
  destruct (dict_get varname (attrs ag)) as [values|]; [|intros H; inversion H; auto].
  rewrite Hsplit. unfold parse_agent_data, bind, lift.
  destruct (apply_function values ag conf) as [raw|e0]; [|intros H; inversion H; auto].
  intros Hrun.
  destruct (report_value_raise_variables m (NameStr n) raw conf st st' e Hrun)
    as [[Hv|(n' & id & Hname & _)] Ht]; [auto|discriminate Hname].
Qed.

(** X19: a step whose first directive (not split) raises stops there
    with that exception: no series has changed, but the time of the step
    is already recorded, so from then on the recorded times are one more
    than the values of every series that was in step with them. *)
Theorem failed_step_records_time_only (m : Model) (n : string) (conf : Conf)
    (rest : list (string * Conf)) (st st' : Reporter) (e : Exc) :
  directives m = (n, conf) :: rest ->
  truthy (c_split conf) = false ->
  extract_agent_data m n conf (push_timestep (current_time m) st) = (Raise e, st') ->
  step m st = (Raise e, st') /\
  variables st' = variables st /\
  timesteps st' = timesteps st ++ [current_time m] /\
  forall name, length (flat_series name st) = length (timesteps st) ->
               S (length (flat_series name st')) = length (timesteps st').
Proof.
  intros Hds Hsplit Hrun.
  destruct (extract_nonsplit_raise m n conf _ st' e Hsplit Hrun) as [Hv Ht].
  simpl in Hv, Ht.
  split; [|split; [exact Hv|split; [exact Ht|]]].
  - rewrite step_unfold, Hds. simpl. unfold bind. rewrite Hrun. reflexivity.
  - intros name Hal. unfold flat_series in *. rewrite Hv, Ht, length_app. simpl.
    rewrite Hal. lia.
Qed.

End FailureProperties.



(** ** The further properties on the example world *)

Lemma split_table_names_unique : NoDup (map fst split_table).
Proof. apply NoDup_ListNoDup. repeat constructor; simpl; intuition discriminate. Qed.

Lemma split_day_has (n : Z) (name : string) (conf : Conf) :
  In (name, conf) split_table -> has_directive (split_day n) name conf.
Proof. intros H. split; [exact split_table_names_unique|exact H]. Qed.

(** X3 on two steps of the example model. *)
Lemma series_is_aligned_with_timesteps_witness :
  timesteps (snd (run [day 0; day 1] blank)) = map current_time [day 0; day 1] /\
  length (flat_series "total" (snd (run [day 0; day 1] blank))) =
  length (timesteps (snd (run [day 0; day 1] blank))).
Proof.
  destruct (series_is_aligned_with_timesteps [day 0; day 1] "total" total "save"
              blank (snd (run [day 0; day 1] blank)))
    as (Ht & Hlen & _).
  - reflexivity.
  - reflexivity.
  - apply outcome_with_state. reflexivity.
  - repeat (constructor; [apply day_has; simpl; auto|]). constructor.
  - reflexivity.
  - reflexivity.
  - reflexivity.
  - split; [exact Ht|exact Hlen].
Defined.

(** X4 on a directive that saves and exports but has no format: the
    export raises and nothing is buffered. *)
Lemma report_value_raise_keeps_store_witness :
  variables (snd (report_value (day 0) (NameStr "w") (Py (PyInt 1)) no_format blank))
  = variables blank.
Proof.
  destruct (report_value_raise_keeps_store (day 0) (NameStr "w") (Py (PyInt 1)) no_format
              blank
              (snd (report_value (day 0) (NameStr "w") (Py (PyInt 1)) no_format blank))
              (ValueError "Export format must be specified for w in config file (npy/csv/xlsx)."))
    as (_ & _ & Hv).
  - reflexivity.
  - apply Hv. intros n id Hname. discriminate Hname.
Defined.

(** X5 on the directive 'total', which only saves. *)
Lemma report_value_policy_separates_effects_witness :
  disk_writes (snd (report_value (day 0) (NameStr "total") (Py (PyInt 1)) total blank))
  = disk_writes blank.
Proof.
  destruct (report_value_policy_separates_effects (day 0) (NameStr "total")
              (Py (PyInt 1)) total "save" blank) as [Hdisk _].
  - reflexivity.
  - destruct (Hdisk eq_refl) as (_ & Hw & _). exact Hw.
Defined.

(** X7 on one step of the model with the split directive 'by_farmer'. *)
Lemma split_step_appends_per_entity_witness :
  exists pairs,
    split_values (split_day 0) wealth_by_farmer = Some pairs /\
    forall id, per_id_series "by_farmer" id (snd (step (split_day 0) blank)) =
               per_id_series "by_farmer" id blank ++ values_of id pairs.
Proof.
  destruct (split_step_appends_per_entity (split_day 0) "by_farmer" wealth_by_farmer
              "save" blank (snd (step (split_day 0) blank)))
    as (pairs & Hp & Hall & _).
  - apply outcome_with_state. reflexivity.
  - apply split_day_has. simpl. auto.
  - reflexivity.
  - reflexivity.
  - reflexivity.
  - reflexivity.
  - exists pairs. split; [exact Hp|exact Hall].
Defined.

(** X9 on the example world, where cupy is not installed. *)
Lemma csv_snapshot_needs_cupy_witness :
  fst (export_value (NameStr "wealth") (NdArray (np_int 64) [PyInt 1; PyInt 2])
         initial_csv blank)
  = Raise (NameError "name 'cp' is not defined").
Proof.
  rewrite (csv_snapshot_needs_cupy "wealth" (NdArray (np_int 64) [PyInt 1; PyInt 2])
             initial_csv
             blank "initial").
  - reflexivity.
  - reflexivity.
  - reflexivity.
  - reflexivity.
Defined.

(** X10 on the time stamp of the first of January 2020. *)
Lemma snapshot_filename_has_no_separator_witness :
  ~ In "-"%char (list_ascii_of_string "20200101T000000") /\
  ~ In ":"%char (list_ascii_of_string "20200101T000000").
Proof.
  destruct (snapshot_filename_has_no_separator wealth_export
              (@push_timestep world "2020-01-01T00:00:00" blank) "20200101T000000")
    as (H1 & H2 & _).
  - reflexivity.
  - split; [exact H1|exact H2].
Defined.

(** X11 on three steps of the model with the directive 'wealth', which
    is exported at every step. *)
Lemma exports_once_per_due_step_witness :
  snapshots "wealth" (snd (run [split_day 0; split_day 1; split_day 2] blank)) = 3%nat.
Proof.
  destruct (exports_once_per_due_step [split_day 0; split_day 1; split_day 2]
              "wealth" wealth_export "export"
              blank (snd (run [split_day 0; split_day 1; split_day 2] blank)))
    as [Hcount _].
  - apply outcome_with_state. reflexivity.
  - repeat (constructor; [apply split_day_has; simpl; auto|]). constructor.
  - reflexivity.
  - reflexivity.
  - rewrite Hcount. reflexivity.
Defined.

(** X14 on ids [0, -1, 1] for two groups. *)
Lemma negative_ids_count_from_the_end_witness :
  sum_per_ID int64 [1; 2; 3] [0; -1; 1] 2 = sum_per_ID int64 [1; 2; 3] [0; 1; 1] 2.
Proof.
  destruct (negative_ids_count_from_the_end int64 [1; 2; 3] [0; -1; 1] 2) as [Hsum _].
  - reflexivity.
  - repeat constructor; lia.
  - exact Hsum.
Defined.

(** X15 on three values in two of three groups. *)
Lemma sum_per_ID_preserves_total_witness :
  fold_right Z.add 0 [7; 3; 0] mod 2 ^ 64 = fold_right Z.add 0 [5; -2; 7] mod 2 ^ 64.
Proof.
  apply (sum_per_ID_preserves_total [5; -2; 7] [1; 1; 0] 3 [7; 3; 0]).
  - repeat constructor; lia.
  - reflexivity.
Defined.

(** X16 on the directive 'total' (function 'sum', no ids) of the farmers. *)
Lemma reduction_without_ids_ignores_values_witness :
  apply_function (NdArray (np_int 64) [PyInt 1]) farmers total =
  @np_sum world (NdArray (np_int 64) [PyInt 1; PyInt 2; PyInt 3; PyInt 4]).
Proof.
  destruct (reduction_without_ids_ignores_values farmers total "wealth"
              (NdArray (np_int 64) [PyInt 1; PyInt 2; PyInt 3; PyInt 4])
              eq_refl eq_refl eq_refl (NdArray (np_int 64) [PyInt 1]))
    as (_ & Hsum & _).
  apply Hsum. reflexivity.
Defined.

(** X18 on the farmers' wealth held as an int8 array and summed per
    region: the sum of the first region, 100 + 100, wraps to -56. *)
Lemma sum_directive_reports_group_sums_witness :
  exists out,
    apply_function (NdArray (np_int 8) [PyInt 100; PyInt 2; PyInt 100; PyInt 4]) farmers
      (wealth_by_region "sum") = Ok (NdArray (np_int 8) (map PyInt out)) /\
    out !! 0%nat = Some (-56).
Proof.
  destruct (sum_directive_reports_group_sums farmers (wealth_by_region "sum") "region"
              (np_int 64) [PyInt 0; PyInt 1] 8 64 [100; 2; 100; 4] [0; 1; 0; 1])
    as (out & Hout & _ & Hslots).
  - reflexivity.
  - reflexivity.
  - reflexivity.
  - reflexivity.
  - reflexivity.
  - repeat constructor; simpl; lia.
  - exists out. split; [exact Hout|]. apply (Hslots 0). simpl. lia.
Defined.

(** X19 on a table whose first directive names an attribute the farmers
    do not have. *)
Lemma failed_step_records_time_only_witness :
  fst (step (model [("height", height); ("total", total)] "2020-01-01T00:00:00" 0) blank)
  = Raise (AttributeError
             "Trying to export 'height', but no such attribute exists for agent type 'farmers'") /\
  variables (snd (step (model [("height", height); ("total", total)]
                          "2020-01-01T00:00:00" 0) blank)) = [].
Proof.
  destruct (failed_step_records_time_only
              (model [("height", height); ("total", total)] "2020-01-01T00:00:00" 0)
              "height" height [("total", total)] blank
              (@push_timestep world "2020-01-01T00:00:00" blank)
              (AttributeError
                 "Trying to export 'height', but no such attribute exists for agent type 'farmers'"))
    as (Hstep & Hv & _).
  - reflexivity.
  - reflexivity.
  - reflexivity.
  - rewrite Hstep. split; [reflexivity|exact Hv].
Defined.
